(** * Verification of the synthetic execution feed (deepHaven/executions.py)

    The script builds a ticking Deephaven table: one row per second, every
    column given by a Java expression over the row index [ii] and calls to
    [Math.random()].  This development embeds those column formulas, with
    the Java arithmetic they rely on (binary64 rounding, [Math.round],
    integer casts, [String.format], array indexing), and proves the
    properties of the generated rows. *)

From Stdlib Require Import ZArith Zquot QArith Qround Qpower Qabs Qreduction.
From Stdlib Require Import Lia Lqa Bool List String Ascii DecimalString SpecFloat.
From Stdlib Require Import DecimalN.
Import ListNotations.

Local Open Scope Q_scope.

(** ** Binary64 arithmetic

    A finite Java [double] is carried as the rational it denotes.  Every
    arithmetic operation computes the exact rational result and rounds it
    to the nearest binary64 value, ties to even ([RN]).  Subnormal spacing
    is modelled; overflow to infinity is not (no value of this program
    exceeds 2^36). *)

Module Double.

Definition double := Q.
Bind Scope Q_scope with double.

Definition emin : Z := (-1022)%Z.

Definition pow2 (e : Z) : Q := 2 ^ e.

(** [ilog2 x] is the integer [e] with [2^e <= x < 2^(e+1)], for [x > 0]. *)
Definition ilog2 (x : Q) : Z :=
  let e0 := (Z.log2 (Qnum x) - Z.log2 (Zpos (Qden x)))%Z in
  if Qle_bool (pow2 e0) x then e0 else (e0 - 1)%Z.

(** Nearest integer, ties to the even one. *)
Definition rne (q : Q) : Z :=
  let f := Qfloor q in
  match Qcompare (q - inject_Z f) (1 # 2) with
  | Lt => f
  | Gt => (f + 1)%Z
  | Eq => if Z.even f then f else (f + 1)%Z
  end.

(** Exponent of the unit in the last place of [x]: 53 significant bits,
    never below the subnormal spacing 2^-1074. *)
Definition ulp_exp (x : Q) : Z := (Z.max (ilog2 x) emin - 52)%Z.

Definition RN_pos (x : Q) : Q :=
  let e := ulp_exp x in
  Qred (inject_Z (rne (x * pow2 (- e))) * pow2 e).

Definition RN (x : Q) : double :=
  match Qcompare x 0 with
  | Eq => 0
  | Gt => RN_pos x
  | Lt => - RN_pos (- x)
  end.

Definition mul (x y : double) : double := RN (x * y).
Definition add (x y : double) : double := RN (x + y).
Definition div (x y : double) : double := RN (x / y).

(** Conversion of a Java [int] or [long] to [double]. *)
Definition of_Z (n : Z) : double := RN (inject_Z n).

End Double.

(** ** Java operations used by the column formulas *)

Module Java.

Import Double.

(** Two's-complement wrap-around of the integer types. *)
Definition wrap (bits : Z) (x : Z) : Z :=
  ((x + 2 ^ (bits - 1)) mod 2 ^ bits - 2 ^ (bits - 1))%Z.

(** The narrowing cast [(int) x] and the result of [long] arithmetic. *)
Definition to_int (x : Z) : Z := wrap 32 x.
Definition to_long (x : Z) : Z := wrap 64 x.

Definition Long_MIN_VALUE : Z := (- 2 ^ 63)%Z.
Definition Long_MAX_VALUE : Z := (2 ^ 63 - 1)%Z.

(** [Math.round(double)]: [floor(x + 1/2)] as a [long], saturating. *)
Definition Math_round (x : double) : Z :=
  Z.max Long_MIN_VALUE (Z.min Long_MAX_VALUE (Qfloor (x + (1 # 2)))).

(** [a % b] on integers truncates towards zero. *)
Definition rem (a b : Z) : Z := Z.rem a b.

(** [arr[i]]: [None] stands for ArrayIndexOutOfBoundsException. *)
Definition array_get {A : Type} (arr : list A) (i : Z) : option A :=
  if (i <? 0)%Z then None else nth_error arr (Z.to_nat i).

Fixpoint zeros (n : nat) : string :=
  match n with
  | O => EmptyString
  | S n' => String "0" (zeros n')
  end.

Definition decimal (n : Z) : string :=
  NilZero.string_of_uint (N.to_uint (Z.to_N n)).

(** [String.format("%0<width>d", x)]: decimal digits, a leading minus
    sign for negative numbers, zeros inserted after the sign up to the
    width; longer numbers are not truncated. *)
Definition String_format_0d (width : nat) (x : Z) : string :=
  let sign := (if (x <? 0)%Z then "-" else "")%string in
  let digits := decimal (Z.abs x) in
  (sign ++ zeros (width - String.length sign - String.length digits) ++ digits)%string.

End Java.

(** ** The random source

    [Math.random()] returns the next of a sequence of doubles, each one of
    the 2^53 equally likely values [k * 2^-53], [0 <= k < 2^53].  A source
    is the sequence of the integers [k] it will deliver. *)

Definition RandomSource := nat -> Z.

Definition valid_draw (k : Z) : Prop := (0 <= k < 2 ^ 53)%Z.

Definition valid_source (s : RandomSource) : Prop := forall n, valid_draw (s n).

Definition unit_draw (k : Z) : Double.double := inject_Z k * Double.pow2 (-53).

Definition advance (n : nat) (s : RandomSource) : RandomSource := fun i => s (n + i)%nat.

(** Evaluation of a formula: it may consume draws and may raise. *)
Definition Eval (A : Type) : Type := RandomSource -> option (A * RandomSource).

Definition ret {A : Type} (a : A) : Eval A := fun s => Some (a, s).

Definition bind {A B : Type} (m : Eval A) (f : A -> Eval B) : Eval B :=
  fun s => match m s with
           | Some (a, s') => f a s'
           | None => None
           end.

Definition lift {A : Type} (o : option A) : Eval A :=
  fun s => match o with
           | Some a => Some (a, s)
           | None => None
           end.

Definition Math_random : Eval Double.double :=
  fun s => Some (unit_draw (s O), advance 1 s).

Notation "x <- m ;; k" := (bind m (fun x => k))
  (at level 61, m at next level, right associativity).

(** ** The column formulas of [executions] *)

Module Formula.

Import Double Java.

Definition SYMBOLS : list string :=
  ["UST 2Y"; "UST 5Y"; "UST 10Y"; "UST 30Y"; "SOFR 3M"; "TIPS 10Y"]%string.
Definition CUSIPS : list string :=
  ["91282CJL6"; "91282CJM4"; "91282CJN2"; "912810TM0"; "91282CJP7"; "912810TP3"]%string.
Definition VENUES : list string :=
  ["D2C"; "D2D"; "ECN"; "RFQ"; "CLOB"]%string.
Definition COUNTERPARTIES : list string :=
  ["GS"; "JPM"; "MS"; "BARC"; "CITI"; "BofA"; "HSBC"; "DB"]%string.
Definition STATUSES : list string :=
  ["FILLED"; "FILLED"; "FILLED"; "PARTIAL"; "REJECTED"]%string.
Definition TRADERS : list string :=
  ["JSMITH"; "ADOE"; "MWONG"; "KPATEL"]%string.
Definition BOOKS : list string :=
  ["RATES-NY"; "RATES-LDN"; "RATES-TKY"]%string.

(** Index expressions, in the order of the script. *)
Definition Symbol_index (ii : Z) : Z := to_int (rem ii 6).
Definition CUSIP_index (ii : Z) : Z := to_int (rem ii 6).
Definition Venue_index (ii : Z) : Z := to_int (rem ii 5).
Definition Counterparty_index (u : double) : Z := to_int (Math_round (mul u 7)).
Definition ExecStatus_index (u : double) : Z := to_int (Math_round (mul u 4)).
Definition Trader_index (ii : Z) : Z := to_int (rem ii 4).
Definition Book_index (ii : Z) : Z := to_int (rem ii 3).

Definition ExecId (ii : Z) : string := ("EXE-" ++ String_format_0d 6 ii)%string.
Definition OrderId (ii : Z) : string :=
  ("ORD-" ++ String_format_0d 4 (to_int (rem ii 500)))%string.
Definition Symbol (ii : Z) : option string := array_get SYMBOLS (Symbol_index ii).
Definition CUSIP (ii : Z) : option string := array_get CUSIPS (CUSIP_index ii).
Definition Side (ii : Z) : string :=
  (if (rem ii 2 =? 0)%Z then "BUY" else "SELL")%string.
Definition Quantity (u : double) : Z :=
  to_int (to_long (Math_round (add (mul u 50) 1) * 1000000)).
Definition Price (u : double) : double :=
  add 99 (div (of_Z (Math_round (mul u 400))) 128).
Definition Yield (u : double) : double :=
  add (7 # 2) (div (of_Z (Math_round (mul u 200))) 100).
Definition Notional (quantity : Z) (price : double) : double :=
  div (mul (of_Z quantity) price) 100.
Definition Venue (ii : Z) : option string := array_get VENUES (Venue_index ii).
Definition Counterparty (u : double) : option string :=
  array_get COUNTERPARTIES (Counterparty_index u).
Definition ExecStatus (u : double) : option string :=
  array_get STATUSES (ExecStatus_index u).
Definition Trader (ii : Z) : option string := array_get TRADERS (Trader_index ii).
Definition Book (ii : Z) : option string := array_get BOOKS (Book_index ii).

End Formula.

(** ** Rows and the table *)

Record ExecutionRecord : Type := {
  ExecId : string;
  OrderId : string;
  Symbol : string;
  CUSIP : string;
  Side : string;
  Quantity : Z;
  Price : Double.double;
  Yield : Double.double;
  Notional : Double.double;
  Venue : string;
  Counterparty : string;
  ExecStatus : string;
  Trader : string;
  Book : string
}.

(** One row: the formulas are evaluated in the order of the list passed
    to [update]; a formula that names an earlier column reads the value
    already computed for this row. *)
Definition synthesize (ii : Z) : Eval ExecutionRecord :=
  let execId := Formula.ExecId ii in
  let orderId := Formula.OrderId ii in
  symbol <- lift (Formula.Symbol ii) ;;
  cusip <- lift (Formula.CUSIP ii) ;;
  let side := Formula.Side ii in
  u1 <- Math_random ;;
  let quantity := Formula.Quantity u1 in
  u2 <- Math_random ;;
  let price := Formula.Price u2 in
  u3 <- Math_random ;;
  let yield := Formula.Yield u3 in
  let notional := Formula.Notional quantity price in
  venue <- lift (Formula.Venue ii) ;;
  u4 <- Math_random ;;
  counterparty <- lift (Formula.Counterparty u4) ;;
  u5 <- Math_random ;;
  status <- lift (Formula.ExecStatus u5) ;;
  trader <- lift (Formula.Trader ii) ;;
  book <- lift (Formula.Book ii) ;;
  ret {| ExecId := execId; OrderId := orderId; Symbol := symbol; CUSIP := cusip;
         Side := side; Quantity := quantity; Price := price; Yield := yield;
         Notional := notional; Venue := venue; Counterparty := counterparty;
         ExecStatus := status; Trader := trader; Book := book |}.

(** The ticking table after [n] ticks, starting at row index [ii]. *)
Fixpoint rows_from (ii : Z) (n : nat) : Eval (list ExecutionRecord) :=
  match n with
  | O => ret []
  | S n' =>
      r <- synthesize ii ;;
      rs <- rows_from (ii + 1) n' ;;
      ret (r :: rs)
  end.

Definition executions (n : nat) : Eval (list ExecutionRecord) := rows_from 0 n.

(** A source to run the model on: a 53-bit congruential sequence. *)
Definition demo_source : RandomSource :=
  fun n => ((Z.of_nat n * 6364136223846793005 + 1442695040888963407) mod 2 ^ 53)%Z.

(** ** Definitions used by the statements *)

(** The largest value a draw can take. *)
Definition MAX_DRAW : Z := (2 ^ 53 - 1)%Z.

(** What a row generated at index [ii] from the source [s] contains. *)
Record RowSpec (ii : Z) (s : RandomSource) (r : ExecutionRecord) : Prop := {
  row_ExecId : ExecId r = Formula.ExecId ii;
  row_OrderId : OrderId r = Formula.OrderId ii;
  row_Symbol : Formula.Symbol ii = Some (Symbol r);
  row_CUSIP : Formula.CUSIP ii = Some (CUSIP r);
  row_Side : Side r = Formula.Side ii;
  row_Quantity : Quantity r = Formula.Quantity (unit_draw (s 0%nat));
  row_Price : Price r = Formula.Price (unit_draw (s 1%nat));
  row_Yield : Yield r = Formula.Yield (unit_draw (s 2%nat));
  row_Notional : Notional r = Formula.Notional (Quantity r) (Price r);
  row_Venue : Formula.Venue ii = Some (Venue r);
  row_Counterparty : Formula.Counterparty (unit_draw (s 3%nat)) = Some (Counterparty r);
  row_ExecStatus : Formula.ExecStatus (unit_draw (s 4%nat)) = Some (ExecStatus r);
  row_Trader : Formula.Trader ii = Some (Trader r);
  row_Book : Formula.Book ii = Some (Book r)
}.

(** Exhaustive check of a predicate on [0 .. n-1]. *)
Fixpoint forall_below (n : nat) (p : Z -> bool) : bool :=
  match n with
  | O => true
  | S n' => p (Z.of_nat n') && forall_below n' p
  end.

(** The specification's reading of "zero-padded to 4 digits": the four
    decimal digits of a number below 10000, most significant first. *)
Definition digit (d : Z) : ascii := ascii_of_nat (48 + Z.to_nat d).

Definition zero_padded4 (m : Z) : string :=
  String (digit (m / 1000))
    (String (digit (m / 100 mod 10))
       (String (digit (m / 10 mod 10))
          (String (digit (m mod 10)) EmptyString))).

(** Syntactic equality of two fractions, decided. *)
Definition Qsame (a b : Q) : bool :=
  (Qnum a =? Qnum b)%Z && (Qden a =? Qden b)%positive.

(** A source whose every draw is 127/128. *)
Definition high_source : RandomSource := fun _ => (2 ^ 53 - 2 ^ 46)%Z.

(** The relation between the Notional, Quantity and Price of one row:
    the value the formula computes from that row's columns, which is the
    exact quotient up to two binary64 roundings. *)
Definition NotionalOwnRow (r : ExecutionRecord) : Prop :=
  Notional r = Double.div (Double.mul (Double.of_Z (Quantity r)) (Price r)) 100
  /\ Qabs (Notional r - inject_Z (Quantity r) * Price r / 100)
     <= (1 # 2 ^ 51) * (inject_Z (Quantity r) * Price r / 100).

(** Number of the draws [0 <= k < n] that satisfy [p]. *)
Definition count_below (p : Z -> bool) (n : N) : Z :=
  N.peano_rect (fun _ => Z) 0%Z
    (fun i acc => if p (Z.of_N i) then (acc + 1)%Z else acc) n.

(** Probability of an event of one call to [Math.random()]: the share of
    the 2^53 equally likely draws on which it happens. *)
Definition DRAWS : N := (2 ^ 53)%N.

Definition probability (p : Z -> bool) : Q := count_below p DRAWS # 2 ^ 53.

Definition status_is (name : string) (k : Z) : bool :=
  match Formula.ExecStatus (unit_draw k) with
  | Some v => String.eqb v name
  | None => false
  end.

Definition counterparty_is (name : string) (k : Z) : bool :=
  match Formula.Counterparty (unit_draw k) with
  | Some v => String.eqb v name
  | None => false
  end.

(** The rational denoted by a finite float of the library's IEEE 754
    specification, used to test [Double] against it. *)
Definition Q_of_spec_float (f : spec_float) : Q :=
  match f with
  | S754_finite s m e =>
      Qred ((if s then -1 else 1) * inject_Z (Zpos m) * Double.pow2 e)
  | _ => 0
  end.

Definition binary64 (m : positive) (e : Z) : spec_float := S754_finite false m e.

(** Reading a formatted integer back: decimal digits, leading zeros
    allowed, after an optional minus sign. *)
Definition parse_digits (s : string) : option N :=
  option_map N.of_uint (NilEmpty.uint_of_string s).

Definition parse_int (s : string) : option Z :=
  match s with
  | EmptyString => None
  | String c rest =>
      if Ascii.eqb c "-"
      then option_map (fun n => (- Z.of_N n)%Z) (parse_digits rest)
      else option_map Z.of_N (parse_digits s)
  end.

(** The draws at which [Math.round(u * 50 + 1)] steps to its next value:
    entry [j] is the first draw that gives more than [j]. *)
Definition QUANTITY_CUTS : list Z :=
  [0; 90071992547410; 270215977642230;
   450359962737050; 630503947831870; 810647932926690;
   990791918021510; 1170935903116329; 1351079888211149;
   1531223873305969; 1711367858400789; 1891511843495609;
   2071655828590428; 2251799813685248; 2431943798780068;
   2612087783874888; 2792231768969708; 2972375754064528;
   3152519739159347; 3332663724254167; 3512807709348987;
   3692951694443807; 3873095679538627; 4053239664633447;
   4233383649728266; 4413527634823086; 4593671619917906;
   4773815605012726; 4953959590107546; 5134103575202366;
   5314247560297185; 5494391545392005; 5674535530486825;
   5854679515581645; 6034823500676464; 6214967485771284;
   6395111470866104; 6575255455960924; 6755399441055744;
   6935543426150564; 7115687411245384; 7295831396340203;
   7475975381435023; 7656119366529843; 7836263351624663;
   8016407336719483; 8196551321814303; 8376695306909122;
   8556839292003942; 8736983277098762; 8917127262193582;
   9007199254740992]%Z.

Definition quantity_round (k : Z) : Z :=
  Java.Math_round (Double.add (Double.mul (unit_draw k) 50) 1).

Definition quantity_is (q : Z) (k : Z) : bool :=
  (Formula.Quantity (unit_draw k) =? q)%Z.

Definition cut (j : Z) : Z := nth (Z.to_nat j) QUANTITY_CUTS 0%Z.

(** The four evaluations that pin the draws giving [j] to the interval
    between cut [j-1] and cut [j]. *)
Definition cut_checked (j : Z) : bool :=
  (j =? 0)%Z ||
  ((cut (j - 1) <? cut j)%Z
   && (quantity_round (cut (j - 1)) =? j)%Z
   && (quantity_round (cut j - 1) =? j)%Z
   && ((j =? 1)%Z || (quantity_round (cut (j - 1) - 1) =? j - 1)%Z)
   && ((j =? 51)%Z || (quantity_round (cut j) =? j + 1)%Z)).
(** * Proofs *)

(** *** Properties of the rounding *)

Lemma pow2_pos (e : Z) : 0 < Double.pow2 e.
Proof. apply Qpower_0_lt. reflexivity. Qed.

Lemma pow2_add (a b : Z) : Double.pow2 (a + b) == Double.pow2 a * Double.pow2 b.
Proof. apply Qpower_plus. discriminate. Qed.

Lemma pow2_cancel (e : Z) : Double.pow2 (- e) * Double.pow2 e == 1.
Proof. rewrite <- pow2_add. replace (- e + e)%Z with 0%Z by lia. reflexivity. Qed.

Lemma pow2_le (a b : Z) : (a <= b)%Z -> Double.pow2 a <= Double.pow2 b.
Proof. intros H. apply Qpower_le_compat_l; [exact H | discriminate]. Qed.

Lemma pow2_Z (n : Z) : (0 <= n)%Z -> Double.pow2 n == inject_Z (2 ^ n).
Proof. intros H. unfold Double.pow2. rewrite Zpower_Qpower by exact H. reflexivity. Qed.

Lemma pow2_quot (n m : Z) :
  (0 <= n)%Z -> (0 <= m)%Z ->
  Double.pow2 (n - m) == (2 ^ n)%Z # Z.to_pos (2 ^ m).
Proof.
  intros Hn Hm. unfold Double.pow2.
  rewrite Qpower_minus by discriminate.
  fold (Double.pow2 n) (Double.pow2 m). rewrite !pow2_Z by assumption.
  rewrite Qmake_Qdiv. rewrite Z2Pos.id by (apply Z.pow_pos_nonneg; lia).
  reflexivity.
Qed.

Lemma ilog2_spec (x : Q) :
  0 < x -> Double.pow2 (Double.ilog2 x) <= x /\ x < Double.pow2 (Double.ilog2 x + 1).
Proof.
  intros Hx. destruct x as [a d]. unfold Double.ilog2. cbn [Qnum Qden].
  assert (Ha : (0 < a)%Z) by (unfold Qlt in Hx; cbn in Hx; lia).
  pose proof (Z.log2_spec a Ha) as [Ha1 Ha2].
  pose proof (Z.log2_spec (Zpos d) (Pos2Z.is_pos d)) as [Hd1 Hd2].
  pose proof (Z.log2_nonneg a) as Hla.
  pose proof (Z.log2_nonneg (Zpos d)) as Hld.
  set (la := Z.log2 a) in *. set (ld := Z.log2 (Zpos d)) in *.
  assert (HA : (0 < 2 ^ la)%Z) by (apply Z.pow_pos_nonneg; lia).
  assert (HD : (0 < 2 ^ ld)%Z) by (apply Z.pow_pos_nonneg; lia).
  assert (HA2 : (2 ^ Z.succ la = 2 * 2 ^ la)%Z) by (apply Z.pow_succ_r; lia).
  assert (HD2 : (2 ^ Z.succ ld = 2 * 2 ^ ld)%Z) by (apply Z.pow_succ_r; lia).
  assert (Hup : a # d < Double.pow2 (la - ld + 1)).
  { replace (la - ld + 1)%Z with (Z.succ la - ld)%Z by lia.
    rewrite pow2_quot by lia. unfold Qlt. cbn [Qnum Qden].
    rewrite Z2Pos.id by lia. nia. }
  assert (Hlo : Double.pow2 (la - ld - 1) <= a # d).
  { replace (la - ld - 1)%Z with (la - Z.succ ld)%Z by lia.
    rewrite pow2_quot by lia. unfold Qle. cbn [Qnum Qden].
    rewrite Z2Pos.id by lia. nia. }
  destruct (Qle_bool (Double.pow2 (la - ld)) (a # d)) eqn:Hb.
  - apply Qle_bool_iff in Hb. split; assumption.
  - assert (Hlt : a # d < Double.pow2 (la - ld)).
    { apply Qnot_le_lt. intros Hc. apply Qle_bool_iff in Hc. congruence. }
    replace (la - ld - 1 + 1)%Z with (la - ld)%Z by lia. split; assumption.
Qed.

Lemma ilog2_le (x y : Q) : 0 < x -> x <= y -> (Double.ilog2 x <= Double.ilog2 y)%Z.
Proof.
  intros Hx Hxy.
  destruct (ilog2_spec x Hx) as [Hx1 _].
  destruct (ilog2_spec y (Qlt_le_trans _ _ _ Hx Hxy)) as [_ Hy2].
  assert (H : Double.pow2 (Double.ilog2 x) < Double.pow2 (Double.ilog2 y + 1)).
  { eapply Qle_lt_trans; [exact Hx1|]. eapply Qle_lt_trans; [exact Hxy | exact Hy2]. }
  apply Qpower_lt_compat_l_inv in H; [lia | reflexivity].
Qed.

Lemma rne_range (x : Q) :
  Double.rne x = Qfloor x \/ Double.rne x = (Qfloor x + 1)%Z.
Proof.
  unfold Double.rne.
  destruct (Qcompare (x - inject_Z (Qfloor x)) (1 # 2)); auto.
  destruct (Z.even (Qfloor x)); auto.
Qed.

Lemma rne_le (x y : Q) : x <= y -> (Double.rne x <= Double.rne y)%Z.
Proof.
  intros Hxy. pose proof (Qfloor_resp_le x y Hxy) as Hf.
  destruct (Z.eq_dec (Qfloor x) (Qfloor y)) as [He | Hne].
  - unfold Double.rne. rewrite <- He.
    destruct (Qcompare_spec (x - inject_Z (Qfloor x)) (1 # 2)) as [H1 | H1 | H1];
      destruct (Qcompare_spec (y - inject_Z (Qfloor x)) (1 # 2)) as [H2 | H2 | H2];
      try lia; try lra; destruct (Z.even (Qfloor x)); try lia; lra.
  - destruct (rne_range x) as [-> | ->]; destruct (rne_range y) as [-> | ->]; lia.
Qed.

Lemma rne_Z (n : Z) : Double.rne (inject_Z n) = n.
Proof.
  unfold Double.rne. rewrite Qfloor_Z.
  destruct (Qcompare_spec (inject_Z n - inject_Z n) (1 # 2)) as [H | H | H];
    try reflexivity; lra.
Qed.

Lemma RN_pos_eq (x : Q) :
  Double.RN_pos x ==
  inject_Z (Double.rne (x * Double.pow2 (- Double.ulp_exp x))) * Double.pow2 (Double.ulp_exp x).
Proof. unfold Double.RN_pos. apply Qred_correct. Qed.

Lemma ulp_exp_le (x y : Q) : 0 < x -> x <= y -> (Double.ulp_exp x <= Double.ulp_exp y)%Z.
Proof.
  intros Hx Hxy. pose proof (ilog2_le x y Hx Hxy). unfold Double.ulp_exp. lia.
Qed.

(** The scaled significand of a positive number is below 2^53. *)
Lemma scaled_lt (x : Q) :
  0 < x -> x * Double.pow2 (- Double.ulp_exp x) < inject_Z (2 ^ 53).
Proof.
  intros Hx. destruct (ilog2_spec x Hx) as [_ Hup].
  assert (Hle : Double.pow2 (Double.ilog2 x + 1) <= Double.pow2 (Double.ulp_exp x + 53)).
  { apply pow2_le. unfold Double.ulp_exp. lia. }
  rewrite (pow2_add (Double.ulp_exp x) 53), (pow2_Z 53) in Hle by lia.
  pose proof (pow2_pos (Double.ulp_exp x)) as Hp.
  pose proof (pow2_pos (- Double.ulp_exp x)) as Hn.
  pose proof (pow2_cancel (Double.ulp_exp x)) as Hc.
  set (p := Double.pow2 (Double.ulp_exp x)) in *.
  set (n := Double.pow2 (- Double.ulp_exp x)) in *.
  set (c := inject_Z (2 ^ 53)) in *.
  assert (H1 : x < p * c) by lra.
  assert (H2 : x * n < p * c * n) by (apply Qmult_lt_compat_r; assumption).
  assert (H3 : p * c * n == c) by (transitivity (c * (n * p)); [ring | rewrite Hc; ring]).
  lra.
Qed.

(** Above the subnormal range the scaled significand is at least 2^52. *)
Lemma scaled_ge (x : Q) :
  0 < x -> (Double.emin < Double.ilog2 x)%Z ->
  inject_Z (2 ^ 52) <= x * Double.pow2 (- Double.ulp_exp x).
Proof.
  intros Hx He. destruct (ilog2_spec x Hx) as [Hlo _].
  assert (Heq : Double.ilog2 x = (Double.ulp_exp x + 52)%Z) by (unfold Double.ulp_exp; lia).
  rewrite Heq in Hlo. rewrite pow2_add in Hlo. rewrite (pow2_Z 52) in Hlo by lia.
  pose proof (pow2_pos (- Double.ulp_exp x)) as Hn.
  pose proof (pow2_cancel (Double.ulp_exp x)) as Hc.
  set (p := Double.pow2 (Double.ulp_exp x)) in *.
  set (n := Double.pow2 (- Double.ulp_exp x)) in *.
  set (c := inject_Z (2 ^ 52)) in *.
  assert (H2 : p * c * n <= x * n) by (apply Qmult_le_compat_r; lra).
  assert (H3 : p * c * n == c) by (transitivity (c * (n * p)); [ring | rewrite Hc; ring]).
  lra.
Qed.

Lemma RN_pos_le (x y : Q) : 0 < x -> x <= y -> Double.RN_pos x <= Double.RN_pos y.
Proof.
  intros Hx Hxy. assert (Hy : 0 < y) by lra.
  rewrite !RN_pos_eq.
  pose proof (ulp_exp_le x y Hx Hxy) as He.
  destruct (Z.eq_dec (Double.ulp_exp x) (Double.ulp_exp y)) as [Heq | Hne].
  - rewrite <- Heq.
    pose proof (pow2_pos (Double.ulp_exp x)) as Hp.
    pose proof (pow2_pos (- Double.ulp_exp x)) as Hn.
    apply Qmult_le_compat_r; [| lra].
    rewrite <- Zle_Qle. apply rne_le. apply Qmult_le_compat_r; lra.
  - assert (Hlt : (Double.ulp_exp x < Double.ulp_exp y)%Z) by lia.
    assert (Hey : (Double.emin < Double.ilog2 y)%Z) by (unfold Double.ulp_exp in *; lia).
    pose proof (scaled_lt x Hx) as Hsx. pose proof (scaled_ge y Hy Hey) as Hsy.
    apply Qlt_le_weak in Hsx. apply rne_le in Hsx. apply rne_le in Hsy.
    rewrite rne_Z in Hsx, Hsy.
    apply Qle_trans with (Double.pow2 (Double.ulp_exp x + 53)).
    + rewrite pow2_add, (pow2_Z 53) by lia. rewrite (Qmult_comm (Double.pow2 _)).
      apply Qmult_le_compat_r; [rewrite <- Zle_Qle; exact Hsx |].
      apply Qlt_le_weak, pow2_pos.
    + apply Qle_trans with (Double.pow2 (Double.ulp_exp y + 52)).
      * apply pow2_le. lia.
      * rewrite pow2_add, (pow2_Z 52) by lia. rewrite (Qmult_comm (Double.pow2 _)).
        apply Qmult_le_compat_r; [rewrite <- Zle_Qle; exact Hsy |].
        apply Qlt_le_weak, pow2_pos.
Qed.

Lemma RN_pos_nonneg (x : Q) : 0 < x -> 0 <= Double.RN_pos x.
Proof.
  intros Hx. rewrite RN_pos_eq.
  apply Qmult_le_0_compat; [| apply Qlt_le_weak, pow2_pos].
  change 0 with (inject_Z 0). rewrite <- Zle_Qle.
  rewrite <- (rne_Z 0). apply rne_le. cbn [inject_Z].
  apply Qmult_le_0_compat; [lra | apply Qlt_le_weak, pow2_pos].
Qed.

(** Rounding to nearest is monotone (stated on the non-negative numbers,
    the only ones this program computes with). *)
Lemma RN_le (x y : Q) : 0 <= x -> x <= y -> Double.RN x <= Double.RN y.
Proof.
  intros Hx Hxy. unfold Double.RN.
  destruct (Qcompare_spec x 0) as [Hx0 | Hx0 | Hx0];
    destruct (Qcompare_spec y 0) as [Hy0 | Hy0 | Hy0]; try lra.
  - apply RN_pos_nonneg; assumption.
  - apply RN_pos_le; assumption.
Qed.

Lemma RN_nonneg (x : Q) : 0 <= x -> 0 <= Double.RN x.
Proof. intros Hx. change 0 with (Double.RN 0) at 1. apply RN_le; [lra | exact Hx]. Qed.


Lemma rne_error (q : Q) : Qabs (inject_Z (Double.rne q) - q) <= 1 # 2.
Proof.
  pose proof (Qfloor_le q) as Hlo. pose proof (Qlt_floor q) as Hhi.
  rewrite inject_Z_plus in Hhi. change (inject_Z 1) with 1 in Hhi.
  apply Qabs_Qle_condition. unfold Double.rne.
  destruct (Qcompare_spec (q - inject_Z (Qfloor q)) (1 # 2)) as [H | H | H];
    [destruct (Z.even (Qfloor q)) | |];
    rewrite ?inject_Z_plus; change (inject_Z 1) with 1; lra.
Qed.

(** Relative error of one rounding, away from the subnormal range. *)
Lemma RN_error (x : Q) : 1 <= x -> Qabs (Double.RN x - x) <= x * (1 # 2 ^ 53).
Proof.
  intros Hx. assert (Hpos : 0 < x) by lra.
  unfold Double.RN. destruct (Qcompare_spec x 0) as [H0 | H0 | H0]; try lra.
  rewrite RN_pos_eq.
  destruct (ilog2_spec x Hpos) as [Hlo Hup].
  assert (Hlog : (0 <= Double.ilog2 x)%Z).
  { assert (Hlt : Double.pow2 0 < Double.pow2 (Double.ilog2 x + 1)).
    { eapply Qle_lt_trans; [| exact Hup]. exact Hx. }
    apply (Qpower_lt_compat_l_inv 2 0 (Double.ilog2 x + 1)) in Hlt; [lia | reflexivity]. }
  assert (He : Double.ilog2 x = (Double.ulp_exp x + 52)%Z)
    by (unfold Double.ulp_exp, Double.emin; lia).
  rewrite He, pow2_add, (pow2_Z 52) in Hlo by lia.
  change (inject_Z (2 ^ 52)) with (4503599627370496 # 1) in Hlo.
  pose proof (pow2_pos (Double.ulp_exp x)) as Hp.
  pose proof (pow2_cancel (Double.ulp_exp x)) as Hc.
  pose proof (rne_error (x * Double.pow2 (- Double.ulp_exp x))) as Hr.
  apply Qabs_Qle_condition in Hr. destruct Hr as [Hr1 Hr2].
  set (p := Double.pow2 (Double.ulp_exp x)) in *.
  set (n := Double.pow2 (- Double.ulp_exp x)) in *.
  set (R := inject_Z (Double.rne (x * n))) in *.
  assert (Hxm : x * n * p == x) by (transitivity (x * (n * p)); [ring | rewrite Hc; ring]).
  assert (H1 : (R - x * n) * p <= (1 # 2) * p) by (apply Qmult_le_compat_r; lra).
  assert (H2 : - (1 # 2) * p <= (R - x * n) * p) by (apply Qmult_le_compat_r; lra).
  assert (H3 : (R - x * n) * p == R * p - x) by (rewrite <- Hxm at 2; ring).
  change (1 # 2 ^ 53) with (1 # 9007199254740992).
  apply Qabs_Qle_condition. lra.
Qed.

(** Rounding respects equality of non-negative rationals. *)
Lemma RN_eq (x y : Q) : 0 <= x -> x == y -> Double.RN x == Double.RN y.
Proof.
  intros Hx Hxy. apply Qle_antisym; apply RN_le; lra.
Qed.

(** *** The model against the library's binary64 operations *)

Example mul_as_IEEE :
  Double.mul (8106479329266893 # 2 ^ 53) 7
  = Q_of_spec_float (SFmul 53 1024 (binary64 8106479329266893 (-53)) (binary64 7 0)).
Proof. vm_compute. reflexivity. Qed.

(** A product that falls half-way between two doubles and rounds to the
    even one, 4.5. *)
Example mul_tie_as_IEEE :
  Double.mul (5790342378047780 # 2 ^ 53) 7 = 9 # 2 /\
  Q_of_spec_float (SFmul 53 1024 (binary64 5790342378047780 (-53)) (binary64 7 0))
  = 9 # 2.
Proof. split; vm_compute; reflexivity. Qed.

Example add_as_IEEE :
  Double.add (Double.mul (8106479329266893 # 2 ^ 53) 50) 1
  = Q_of_spec_float
      (SFadd 53 1024
         (SFmul 53 1024 (binary64 8106479329266893 (-53)) (binary64 50 0))
         (binary64 1 0)).
Proof. vm_compute. reflexivity. Qed.

Example div_as_IEEE :
  Double.div (Double.mul 37000000 (12799 # 128)) 100
  = Q_of_spec_float
      (SFdiv 53 1024
         (SFmul 53 1024 (binary64 37000000 0) (binary64 12799 (-7)))
         (binary64 100 0)).
Proof. vm_compute. reflexivity. Qed.
(** ** Auxiliary facts *)

(** *** Integer casts and remainders *)

Lemma to_int_small (x : Z) : (- 2 ^ 31 <= x < 2 ^ 31)%Z -> Java.to_int x = x.
Proof.
  intros H. unfold Java.to_int, Java.wrap.
  change (2 ^ (32 - 1))%Z with 2147483648%Z in *.
  change (2 ^ 32)%Z with 4294967296%Z.
  change (2 ^ 31)%Z with 2147483648%Z in H.
  rewrite Z.mod_small; lia.
Qed.

Lemma to_long_small (x : Z) : (- 2 ^ 63 <= x < 2 ^ 63)%Z -> Java.to_long x = x.
Proof.
  intros H. unfold Java.to_long, Java.wrap.
  change (2 ^ (64 - 1))%Z with 9223372036854775808%Z in *.
  change (2 ^ 64)%Z with 18446744073709551616%Z.
  change (2 ^ 63)%Z with 9223372036854775808%Z in H.
  rewrite Z.mod_small; lia.
Qed.

(** For a non-negative row index, [(int)(ii % n)] is [ii mod n]. *)
Lemma index_mod (ii n : Z) :
  (0 <= ii)%Z -> (0 < n <= 500)%Z ->
  Java.to_int (Java.rem ii n) = (ii mod n)%Z /\ (0 <= ii mod n < n)%Z.
Proof.
  intros Hii Hn. unfold Java.rem.
  rewrite Z.rem_mod_nonneg by lia.
  pose proof (Z.mod_pos_bound ii n ltac:(lia)) as Hb.
  split; [apply to_int_small; lia | exact Hb].
Qed.

Lemma array_get_nth {A : Type} (arr : list A) (i : Z) (d : A) :
  (0 <= i < Z.of_nat (List.length arr))%Z ->
  Java.array_get arr i = Some (nth (Z.to_nat i) arr d).
Proof.
  intros H. unfold Java.array_get.
  destruct (Z.ltb_spec i 0) as [Hneg | _]; [lia |].
  apply nth_error_nth'. lia.
Qed.

(** *** Monotonicity of the arithmetic on non-negative doubles *)

Lemma unit_draw_nonneg (k : Z) : (0 <= k)%Z -> 0 <= unit_draw k.
Proof.
  intros H. unfold unit_draw.
  apply Qmult_le_0_compat; [| apply Qlt_le_weak, pow2_pos].
  change 0 with (inject_Z 0). rewrite <- Zle_Qle. exact H.
Qed.

Lemma unit_draw_le (a b : Z) : (a <= b)%Z -> unit_draw a <= unit_draw b.
Proof.
  intros H. unfold unit_draw.
  apply Qmult_le_compat_r; [rewrite <- Zle_Qle; exact H | apply Qlt_le_weak, pow2_pos].
Qed.

Lemma mul_le (x y c : Q) : 0 <= x -> x <= y -> 0 <= c -> Double.mul x c <= Double.mul y c.
Proof.
  intros Hx Hxy Hc. unfold Double.mul. apply RN_le.
  - apply Qmult_le_0_compat; assumption.
  - apply Qmult_le_compat_r; assumption.
Qed.

Lemma mul_nonneg (x c : Q) : 0 <= x -> 0 <= c -> 0 <= Double.mul x c.
Proof. intros Hx Hc. apply RN_nonneg. apply Qmult_le_0_compat; assumption. Qed.

Lemma add_le (x y c : Q) : 0 <= x -> x <= y -> 0 <= c -> Double.add x c <= Double.add y c.
Proof. intros Hx Hxy Hc. unfold Double.add. apply RN_le; lra. Qed.

Lemma Math_round_le (x y : Q) : x <= y -> (Java.Math_round x <= Java.Math_round y)%Z.
Proof.
  intros H. unfold Java.Math_round.
  assert (Hf : (Qfloor (x + (1 # 2)) <= Qfloor (y + (1 # 2)))%Z)
    by (apply Qfloor_resp_le; lra).
  lia.
Qed.

(** The rounded product [Math.round(Math.random() * c)] is monotone in
    the draw. *)
Lemma scaled_round_le (c : Q) (a b : Z) :
  0 <= c -> (0 <= a <= b)%Z ->
  (Java.Math_round (Double.mul (unit_draw a) c)
   <= Java.Math_round (Double.mul (unit_draw b) c))%Z.
Proof.
  intros Hc Hab. apply Math_round_le, mul_le.
  - apply unit_draw_nonneg; lia.
  - apply unit_draw_le; lia.
  - exact Hc.
Qed.

Lemma scaled_round_between (c : Q) (a b k j : Z) :
  0 <= c -> (0 <= a <= k)%Z -> (k <= b)%Z ->
  Java.Math_round (Double.mul (unit_draw a) c) = j ->
  Java.Math_round (Double.mul (unit_draw b) c) = j ->
  Java.Math_round (Double.mul (unit_draw k) c) = j.
Proof.
  intros Hc Hak Hkb Ha Hb.
  pose proof (scaled_round_le c a k Hc ltac:(lia)).
  pose proof (scaled_round_le c k b Hc ltac:(lia)).
  lia.
Qed.

Lemma quantity_round_le (a b : Z) :
  (0 <= a <= b)%Z ->
  (Java.Math_round (Double.add (Double.mul (unit_draw a) 50%Q) 1%Q)
   <= Java.Math_round (Double.add (Double.mul (unit_draw b) 50%Q) 1%Q))%Z.
Proof.
  intros Hab. apply Math_round_le, add_le; [| | lra].
  - apply mul_nonneg; [apply unit_draw_nonneg; lia | lra].
  - apply mul_le; [apply unit_draw_nonneg; lia | apply unit_draw_le; lia | lra].
Qed.

(** *** Exhaustive checks over an initial segment of the integers *)

Lemma forall_below_spec (n : nat) (p : Z -> bool) :
  forall_below n p = true -> forall k, (0 <= k < Z.of_nat n)%Z -> p k = true.
Proof.
  induction n as [| n IH]; intros H k Hk; [lia |].
  cbn [forall_below] in H. apply andb_true_iff in H as [Hn Hrest].
  destruct (Z.eq_dec k (Z.of_nat n)) as [-> | Hne]; [exact Hn |].
  apply IH; [exact Hrest | lia].
Qed.

(** *** Range of the indexes computed from a draw *)

Lemma unit_draw_range (k : Z) : valid_draw k -> 0 <= unit_draw k /\ unit_draw k < 1.
Proof.
  intros [Hlo Hhi]. split; [apply unit_draw_nonneg; exact Hlo |].
  unfold unit_draw. change (Double.pow2 (-53)) with (1 # 9007199254740992).
  rewrite Zlt_Qlt in Hhi. change (inject_Z (2 ^ 53)) with 9007199254740992 in Hhi.
  lra.
Qed.

(** [Math.round(u * c)] stays between its values at 0 and at 1. *)
Lemma scaled_round_unit (c u : Q) :
  0 <= c -> 0 <= u -> u <= 1 ->
  (Java.Math_round (Double.mul 0 c) <= Java.Math_round (Double.mul u c)
   <= Java.Math_round (Double.mul 1 c))%Z.
Proof.
  intros Hc Hu0 Hu1. split; apply Math_round_le, mul_le; lra.
Qed.

Lemma Counterparty_index_unit (u : Q) :
  0 <= u -> u < 1 ->
  Formula.Counterparty_index u = Java.Math_round (Double.mul u 7)
  /\ (0 <= Formula.Counterparty_index u <= 7)%Z.
Proof.
  intros Hu0 Hu1. unfold Formula.Counterparty_index.
  pose proof (scaled_round_unit 7 u ltac:(lra) Hu0 ltac:(lra)) as H.
  change (Java.Math_round (Double.mul 0 7)) with 0%Z in H.
  change (Java.Math_round (Double.mul 1 7)) with 7%Z in H.
  rewrite to_int_small by lia. split; [reflexivity | lia].
Qed.

Lemma ExecStatus_index_unit (u : Q) :
  0 <= u -> u < 1 ->
  Formula.ExecStatus_index u = Java.Math_round (Double.mul u 4)
  /\ (0 <= Formula.ExecStatus_index u <= 4)%Z.
Proof.
  intros Hu0 Hu1. unfold Formula.ExecStatus_index.
  pose proof (scaled_round_unit 4 u ltac:(lra) Hu0 ltac:(lra)) as H.
  change (Java.Math_round (Double.mul 0 4)) with 0%Z in H.
  change (Java.Math_round (Double.mul 1 4)) with 4%Z in H.
  rewrite to_int_small by lia. split; [reflexivity | lia].
Qed.

Lemma Counterparty_index_range (k : Z) :
  valid_draw k ->
  Formula.Counterparty_index (unit_draw k) = Java.Math_round (Double.mul (unit_draw k) 7)
  /\ (0 <= Formula.Counterparty_index (unit_draw k) <= 7)%Z.
Proof.
  intros Hk. destruct (unit_draw_range k Hk) as [H0 H1].
  apply Counterparty_index_unit; assumption.
Qed.

Lemma ExecStatus_index_range (k : Z) :
  valid_draw k ->
  Formula.ExecStatus_index (unit_draw k) = Java.Math_round (Double.mul (unit_draw k) 4)
  /\ (0 <= Formula.ExecStatus_index (unit_draw k) <= 4)%Z.
Proof.
  intros Hk. destruct (unit_draw_range k Hk) as [H0 H1].
  apply ExecStatus_index_unit; assumption.
Qed.

(** *** Generated rows *)

Lemma synthesize_inv (ii : Z) (s s' : RandomSource) (r : ExecutionRecord) :
  synthesize ii s = Some (r, s') -> RowSpec ii s r /\ s' = advance 5 s.
Proof.
  unfold synthesize, bind, lift, Math_random, ret.
  destruct (Formula.Symbol ii) as [symbol |] eqn:Hsym; [| discriminate].
  destruct (Formula.CUSIP ii) as [cusip |] eqn:Hcus; [| discriminate].
  destruct (Formula.Venue ii) as [venue |] eqn:Hven; [| discriminate].
  destruct (Formula.Counterparty (unit_draw (advance 1 (advance 1 (advance 1 s)) 0%nat)))
    as [cp |] eqn:Hcp; [| discriminate].
  destruct (Formula.ExecStatus
              (unit_draw (advance 1 (advance 1 (advance 1 (advance 1 s))) 0%nat)))
    as [st |] eqn:Hst; [| discriminate].
  destruct (Formula.Trader ii) as [trader |] eqn:Htr; [| discriminate].
  destruct (Formula.Book ii) as [book |] eqn:Hbk; [| discriminate].
  intros H. injection H as <- <-.
  split; [constructor; cbn [ExecId OrderId Symbol CUSIP Side Quantity Price Yield
                           Notional Venue Counterparty ExecStatus Trader Book];
          first [reflexivity | assumption] | reflexivity].
Qed.

Ltac in_bounds :=
  match goal with
  | |- (0 <= _ < Z.of_nat (List.length ?l))%Z =>
      let n := eval vm_compute in (Z.of_nat (List.length l)) in
      change (Z.of_nat (List.length l)) with n; lia
  end.

Lemma synthesize_total (ii : Z) (s : RandomSource) :
  (0 <= ii)%Z -> valid_source s ->
  exists r, synthesize ii s = Some (r, advance 5 s).
Proof.
  intros Hii Hs.
  destruct (index_mod ii 6 Hii ltac:(lia)) as [E6 B6].
  destruct (index_mod ii 5 Hii ltac:(lia)) as [E5 B5].
  destruct (index_mod ii 4 Hii ltac:(lia)) as [E4 B4].
  destruct (index_mod ii 3 Hii ltac:(lia)) as [E3 B3].
  destruct (Counterparty_index_range
              (advance 1 (advance 1 (advance 1 s)) 0%nat) (Hs 3%nat)) as [_ Bc].
  destruct (ExecStatus_index_range
              (advance 1 (advance 1 (advance 1 (advance 1 s))) 0%nat) (Hs 4%nat)) as [_ Be].
  unfold synthesize, bind, lift, Math_random, ret.
  unfold Formula.Symbol, Formula.CUSIP, Formula.Venue, Formula.Trader, Formula.Book,
    Formula.Symbol_index, Formula.CUSIP_index, Formula.Venue_index,
    Formula.Trader_index, Formula.Book_index.
  rewrite E6, E5, E4, E3.
  rewrite (array_get_nth Formula.SYMBOLS _ EmptyString) by in_bounds.
  rewrite (array_get_nth Formula.CUSIPS _ EmptyString) by in_bounds.
  rewrite (array_get_nth Formula.VENUES _ EmptyString) by in_bounds.
  rewrite (array_get_nth Formula.TRADERS _ EmptyString) by in_bounds.
  rewrite (array_get_nth Formula.BOOKS _ EmptyString) by in_bounds.
  unfold Formula.Counterparty, Formula.ExecStatus.
  rewrite (array_get_nth Formula.COUNTERPARTIES _ EmptyString) by in_bounds.
  rewrite (array_get_nth Formula.STATUSES _ EmptyString) by in_bounds.
  eexists. reflexivity.
Qed.

Lemma valid_advance (n : nat) (s : RandomSource) :
  valid_source s -> valid_source (advance n s).
Proof. intros Hs i. apply Hs. Qed.

Lemma demo_source_valid : valid_source demo_source.
Proof. intros n. unfold valid_draw, demo_source. apply Z.mod_pos_bound. reflexivity. Qed.

(** Every row of a valid run exists and meets [RowSpec]. *)
Lemma synthesize_row (ii : Z) (s : RandomSource) :
  (0 <= ii)%Z -> valid_source s ->
  exists r, synthesize ii s = Some (r, advance 5 s) /\ RowSpec ii s r.
Proof.
  intros Hii Hs. destruct (synthesize_total ii s Hii Hs) as [r Hr].
  exists r. split; [exact Hr | apply (synthesize_inv ii s _ r Hr)].
Qed.

Lemma RowSpec_valid_tail (s : RandomSource) : valid_source s -> valid_source (advance 5 s).
Proof. apply valid_advance. Qed.

(** A property of every generated row holds of every row of the table. *)
Lemma rows_from_Forall (P : ExecutionRecord -> Prop) :
  (forall ii s r, (0 <= ii)%Z -> valid_source s -> RowSpec ii s r -> P r) ->
  forall n ii s, (0 <= ii)%Z -> valid_source s ->
  exists rows s', rows_from ii n s = Some (rows, s') /\
                  List.length rows = n /\ Forall P rows.
Proof.
  intros HP n. induction n as [| n IH]; intros ii s Hii Hs.
  - exists [], s. repeat split. constructor.
  - destruct (synthesize_row ii s Hii Hs) as [r [Hr Hspec]].
    destruct (IH (ii + 1)%Z (advance 5 s) ltac:(lia) (RowSpec_valid_tail s Hs))
      as [rows [s' [Hrows [Hlen Hall]]]].
    exists (r :: rows), s'. cbn [rows_from]. unfold bind at 1. rewrite Hr.
    unfold bind at 1. rewrite Hrows. unfold ret.
    repeat split; [cbn; lia |]. constructor; [| exact Hall].
    apply (HP ii s r Hii Hs Hspec).
Qed.

Lemma Qsame_eq (a b : Q) : Qsame a b = true -> a = b.
Proof.
  destruct a as [an ad], b as [bn bd]. unfold Qsame. cbn [Qnum Qden].
  intros H. apply andb_true_iff in H as [Hn Hd].
  apply Z.eqb_eq in Hn. apply Pos.eqb_eq in Hd. congruence.
Qed.

(** * The claims *)

(** ** Columns derived from the row index *)

Lemma format_04d_padded (m : Z) :
  (0 <= m < 500)%Z -> Java.String_format_0d 4 m = zero_padded4 m.
Proof.
  intros Hm. apply String.eqb_eq.
  apply (forall_below_spec 500
           (fun k => String.eqb (Java.String_format_0d 4 k) (zero_padded4 k)));
    [vm_compute; reflexivity | exact Hm].
Qed.

(** C9: for every row index [ii >= 0], OrderId is the string "ORD-"
    followed by [ii mod 500] zero-padded to 4 digits. *)
Theorem OrderId_zero_padded (ii : Z) (s : RandomSource) :
  (0 <= ii)%Z -> valid_source s ->
  exists r, synthesize ii s = Some (r, advance 5 s) /\
            OrderId r = ("ORD-" ++ zero_padded4 (ii mod 500))%string.
Proof.
  intros Hii Hs. destruct (synthesize_row ii s Hii Hs) as [r [Hr Hspec]].
  exists r. split; [exact Hr |].
  rewrite (row_OrderId _ _ _ Hspec). unfold Formula.OrderId.
  destruct (index_mod ii 500 Hii ltac:(lia)) as [E B].
  rewrite E, format_04d_padded by exact B. reflexivity.
Qed.

Lemma OrderId_zero_padded_witness :
  exists r, synthesize 501 demo_source = Some (r, advance 5 demo_source) /\
            OrderId r = ("ORD-" ++ zero_padded4 (501 mod 500))%string.
Proof.
  apply (OrderId_zero_padded 501 demo_source); [lia | exact demo_source_valid].
Defined.

(** C6: for every row index [ii], Side is "BUY" if and only if [ii] is
    even, and "SELL" otherwise. *)
Theorem Side_parity (ii : Z) (s s' : RandomSource) (r : ExecutionRecord) :
  synthesize ii s = Some (r, s') ->
  (Side r = "BUY"%string <-> Z.even ii = true) /\
  (Side r = "SELL"%string <-> Z.even ii = false).
Proof.
  intros Hr. destruct (synthesize_inv ii s s' r Hr) as [Hspec _].
  rewrite (row_Side _ _ _ Hspec). unfold Formula.Side, Java.rem.
  rewrite Zeven_rem.
  destruct (Z.rem ii 2 =? 0)%Z; split; split; intros H;
    first [reflexivity | discriminate].
Qed.

Lemma Side_parity_witness :
  exists r s',
    synthesize 501 demo_source = Some (r, s') /\
    (Side r = "BUY"%string <-> Z.even 501 = true) /\
    (Side r = "SELL"%string <-> Z.even 501 = false).
Proof.
  eexists. eexists. split.
  - vm_compute. reflexivity.
  - eapply (Side_parity 501 demo_source). vm_compute. reflexivity.
Defined.

(** C7: for every generated row, Symbol and CUSIP are looked up at the
    same index [ii mod 6] of their 6-element tables, so the pair is always
    one of the positionally aligned pairs; at [ii mod 6 = 0] it is
    ("UST 2Y", "91282CJL6"). *)
Theorem Symbol_CUSIP_aligned (ii : Z) (s : RandomSource) :
  (0 <= ii)%Z -> valid_source s ->
  exists r, synthesize ii s = Some (r, advance 5 s) /\
            nth_error Formula.SYMBOLS (Z.to_nat (ii mod 6)) = Some (Symbol r) /\
            nth_error Formula.CUSIPS (Z.to_nat (ii mod 6)) = Some (CUSIP r) /\
            nth_error (combine Formula.SYMBOLS Formula.CUSIPS) (Z.to_nat (ii mod 6))
              = Some (Symbol r, CUSIP r) /\
            ((ii mod 6 = 0)%Z ->
             Symbol r = "UST 2Y"%string /\ CUSIP r = "91282CJL6"%string).
Proof.
  intros Hii Hs. destruct (synthesize_row ii s Hii Hs) as [r [Hr Hspec]].
  exists r. split; [exact Hr |].
  pose proof (row_Symbol _ _ _ Hspec) as Hsym.
  pose proof (row_CUSIP _ _ _ Hspec) as Hcus.
  unfold Formula.Symbol, Formula.Symbol_index in Hsym.
  unfold Formula.CUSIP, Formula.CUSIP_index in Hcus.
  destruct (index_mod ii 6 Hii ltac:(lia)) as [E B].
  rewrite E in Hsym, Hcus. unfold Java.array_get in Hsym, Hcus.
  destruct (Z.ltb_spec (ii mod 6) 0) as [Hneg | _]; [lia |].
  assert (Hcases : (Z.to_nat (ii mod 6) = 0 \/ Z.to_nat (ii mod 6) = 1 \/
                    Z.to_nat (ii mod 6) = 2 \/ Z.to_nat (ii mod 6) = 3 \/
                    Z.to_nat (ii mod 6) = 4 \/ Z.to_nat (ii mod 6) = 5)%nat) by lia.
  repeat split; try assumption.
  - destruct Hcases as [H | [H | [H | [H | [H | H]]]]]; rewrite H in *;
      simpl in Hsym, Hcus |- *; congruence.
  - rewrite H in Hsym. simpl in Hsym. congruence.
  - rewrite H in Hcus. simpl in Hcus. congruence.
Qed.

Lemma Symbol_CUSIP_aligned_witness :
  exists r, synthesize 501 demo_source = Some (r, advance 5 demo_source) /\
            nth_error Formula.SYMBOLS (Z.to_nat (501 mod 6)) = Some (Symbol r) /\
            nth_error Formula.CUSIPS (Z.to_nat (501 mod 6)) = Some (CUSIP r) /\
            nth_error (combine Formula.SYMBOLS Formula.CUSIPS) (Z.to_nat (501 mod 6))
              = Some (Symbol r, CUSIP r) /\
            ((501 mod 6 = 0)%Z ->
             Symbol r = "UST 2Y"%string /\ CUSIP r = "91282CJL6"%string).
Proof.
  apply (Symbol_CUSIP_aligned 501 demo_source); [lia | exact demo_source_valid].
Defined.

(** C8: for every row index [ii >= 0] and every draw [u] in [0,1), each
    array lookup made while a row is synthesized (the modulo-indexed
    Symbol, CUSIP, Venue, Trader and Book, and the draw-indexed
    Counterparty and ExecStatus) uses an index inside its table, and the
    row is produced without an out-of-range access. *)
Theorem lookups_in_bounds (ii : Z) (s : RandomSource) :
  (0 <= ii)%Z -> valid_source s ->
  (0 <= Formula.Symbol_index ii < Z.of_nat (List.length Formula.SYMBOLS))%Z /\
  (0 <= Formula.CUSIP_index ii < Z.of_nat (List.length Formula.CUSIPS))%Z /\
  (0 <= Formula.Venue_index ii < Z.of_nat (List.length Formula.VENUES))%Z /\
  (0 <= Formula.Trader_index ii < Z.of_nat (List.length Formula.TRADERS))%Z /\
  (0 <= Formula.Book_index ii < Z.of_nat (List.length Formula.BOOKS))%Z /\
  (forall u : Double.double, 0 <= u -> u < 1 ->
     (0 <= Formula.Counterparty_index u
        < Z.of_nat (List.length Formula.COUNTERPARTIES))%Z /\
     (0 <= Formula.ExecStatus_index u
        < Z.of_nat (List.length Formula.STATUSES))%Z) /\
  exists r, synthesize ii s = Some (r, advance 5 s).
Proof.
  intros Hii Hs.
  destruct (index_mod ii 6 Hii ltac:(lia)) as [E6 B6].
  destruct (index_mod ii 5 Hii ltac:(lia)) as [E5 B5].
  destruct (index_mod ii 4 Hii ltac:(lia)) as [E4 B4].
  destruct (index_mod ii 3 Hii ltac:(lia)) as [E3 B3].
  unfold Formula.Symbol_index, Formula.CUSIP_index, Formula.Venue_index,
    Formula.Trader_index, Formula.Book_index.
  rewrite E6, E5, E4, E3.
  do 5 (split; [in_bounds |]).
  split; [| apply synthesize_total; assumption].
  intros u Hu0 Hu1.
  destruct (Counterparty_index_unit u Hu0 Hu1) as [_ Hc].
  destruct (ExecStatus_index_unit u Hu0 Hu1) as [_ He].
  change (Z.of_nat (List.length Formula.COUNTERPARTIES)) with 8%Z.
  change (Z.of_nat (List.length Formula.STATUSES)) with 5%Z.
  lia.
Qed.

Lemma lookups_in_bounds_witness :
  (0 <= Formula.Symbol_index 501 < Z.of_nat (List.length Formula.SYMBOLS))%Z /\
  (0 <= Formula.CUSIP_index 501 < Z.of_nat (List.length Formula.CUSIPS))%Z /\
  (0 <= Formula.Venue_index 501 < Z.of_nat (List.length Formula.VENUES))%Z /\
  (0 <= Formula.Trader_index 501 < Z.of_nat (List.length Formula.TRADERS))%Z /\
  (0 <= Formula.Book_index 501 < Z.of_nat (List.length Formula.BOOKS))%Z /\
  (forall u : Double.double, 0 <= u -> u < 1 ->
     (0 <= Formula.Counterparty_index u
        < Z.of_nat (List.length Formula.COUNTERPARTIES))%Z /\
     (0 <= Formula.ExecStatus_index u
        < Z.of_nat (List.length Formula.STATUSES))%Z) /\
  exists r, synthesize 501 demo_source = Some (r, advance 5 demo_source).
Proof.
  apply (lookups_in_bounds 501 demo_source); [lia | exact demo_source_valid].
Defined.

(** The two scenarios of the specification, on the demonstration source. *)
Example row_0 :
  exists r s', synthesize 0 demo_source = Some (r, s') /\
    ExecId r = "EXE-000000"%string /\ OrderId r = "ORD-0000"%string /\
    Symbol r = "UST 2Y"%string /\ CUSIP r = "91282CJL6"%string /\
    Side r = "BUY"%string /\ Trader r = "JSMITH"%string /\
    Book r = "RATES-NY"%string.
Proof. eexists. eexists. split; [vm_compute; reflexivity |]. repeat split. Qed.

Example row_501 :
  exists r s', synthesize 501 demo_source = Some (r, s') /\
    OrderId r = "ORD-0001"%string /\ Symbol r = "UST 30Y"%string /\
    Side r = "SELL"%string.
Proof. eexists. eexists. split; [vm_compute; reflexivity |]. repeat split. Qed.

(** C1 (as stated, refuted): the specification makes Venue a random
    pick, so that at any row each of the five venues can come out.  At
    row 0 the venue "D2D", although in the table, is produced by no
    random source. *)
Lemma Venue_row0_never_D2D :
  In "D2D"%string Formula.VENUES /\
  ~ exists s r s', synthesize 0 s = Some (r, s') /\ Venue r = "D2D"%string.
Proof.
  split; [right; left; reflexivity |].
  intros [s [r [s' [Hr Hv]]]].
  destruct (synthesize_inv 0 s s' r Hr) as [Hspec _].
  pose proof (row_Venue _ _ _ Hspec) as H.
  change (Formula.Venue 0) with (Some "D2C"%string) in H.
  injection H as H. rewrite <- H in Hv. discriminate Hv.
Qed.

(** C1 (amended): for every generated row, Venue is the entry at index
    [ii mod 5] of the fixed table D2C, D2D, ECN, RFQ, CLOB; it is
    determined by the row index and is the same whatever the random
    source delivers. *)
Theorem Venue_by_index (ii : Z) (s : RandomSource) :
  (0 <= ii)%Z -> valid_source s ->
  exists r, synthesize ii s = Some (r, advance 5 s) /\
            nth_error Formula.VENUES (Z.to_nat (ii mod 5)) = Some (Venue r) /\
            forall s2 r2 s2', synthesize ii s2 = Some (r2, s2') -> Venue r2 = Venue r.
Proof.
  intros Hii Hs. destruct (synthesize_row ii s Hii Hs) as [r [Hr Hspec]].
  exists r. split; [exact Hr |].
  pose proof (row_Venue _ _ _ Hspec) as Hven. split.
  - unfold Formula.Venue, Formula.Venue_index in Hven.
    destruct (index_mod ii 5 Hii ltac:(lia)) as [E B].
    rewrite E in Hven. unfold Java.array_get in Hven.
    destruct (Z.ltb_spec (ii mod 5) 0) as [Hneg | _]; [lia | exact Hven].
  - intros s2 r2 s2' Hr2. destruct (synthesize_inv ii s2 s2' r2 Hr2) as [Hspec2 _].
    pose proof (row_Venue _ _ _ Hspec2) as Hven2. congruence.
Qed.

Lemma Venue_by_index_witness :
  exists r, synthesize 501 demo_source = Some (r, advance 5 demo_source) /\
            nth_error Formula.VENUES (Z.to_nat (501 mod 5)) = Some (Venue r) /\
            forall s2 r2 s2', synthesize 501 s2 = Some (r2, s2') -> Venue r2 = Venue r.
Proof.
  apply (Venue_by_index 501 demo_source); [lia | exact demo_source_valid].
Defined.

(** ** Columns computed from a draw *)

Lemma Quantity_cases (k : Z) :
  valid_draw k ->
  exists q, (1 <= q <= 51)%Z /\ Formula.Quantity (unit_draw k) = (q * 1000000)%Z.
Proof.
  intros Hk. unfold valid_draw in Hk.
  assert (H0 : Java.Math_round (Double.add (Double.mul (unit_draw 0) 50) 1) = 1%Z)
    by (vm_compute; reflexivity).
  assert (H1 : Java.Math_round (Double.add (Double.mul (unit_draw MAX_DRAW) 50) 1) = 51%Z)
    by (vm_compute; reflexivity).
  pose proof (quantity_round_le 0 k ltac:(lia)) as Hlo.
  pose proof (quantity_round_le k MAX_DRAW ltac:(unfold MAX_DRAW; lia)) as Hhi.
  rewrite H0 in Hlo. rewrite H1 in Hhi.
  exists (Java.Math_round (Double.add (Double.mul (unit_draw k) 50) 1)).
  split; [lia |]. unfold Formula.Quantity.
  rewrite to_long_small by lia. apply to_int_small. lia.
Qed.

Lemma high_source_valid : valid_source high_source.
Proof. intros n. unfold valid_draw, high_source. lia. Qed.

(** C4 (as stated, refuted): a row whose Quantity draw is 127/128 gets
    Quantity 51,000,000, above the claimed maximum 50,000,000. *)
Lemma Quantity_reaches_51_million :
  valid_source high_source /\
  exists r s', synthesize 0 high_source = Some (r, s') /\
               Quantity r = 51000000%Z /\ (50000000 < Quantity r)%Z.
Proof.
  split; [exact high_source_valid |].
  destruct (synthesize_row 0 high_source ltac:(lia) high_source_valid) as [r [Hr Hspec]].
  exists r, (advance 5 high_source). split; [exact Hr |].
  rewrite (row_Quantity _ _ _ Hspec).
  change (Formula.Quantity (unit_draw (high_source 0%nat))) with 51000000%Z.
  split; [reflexivity | lia].
Qed.

(** C4 (amended): for every generated row, Quantity is a positive integer
    multiple of 1,000,000 lying in the range [1,000,000, 51,000,000]. *)
Theorem Quantity_range (ii : Z) (s : RandomSource) :
  (0 <= ii)%Z -> valid_source s ->
  exists r, synthesize ii s = Some (r, advance 5 s) /\
            (exists q, (0 < q)%Z /\ Quantity r = (q * 1000000)%Z) /\
            (1000000 <= Quantity r <= 51000000)%Z.
Proof.
  intros Hii Hs. destruct (synthesize_row ii s Hii Hs) as [r [Hr Hspec]].
  exists r. split; [exact Hr |].
  rewrite (row_Quantity _ _ _ Hspec).
  destruct (Quantity_cases (s 0%nat) (Hs 0%nat)) as [q [Hq ->]].
  split; [exists q; split; [lia | reflexivity] | lia].
Qed.

Lemma Quantity_range_witness :
  exists r, synthesize 501 demo_source = Some (r, advance 5 demo_source) /\
            (exists q, (0 < q)%Z /\ Quantity r = (q * 1000000)%Z) /\
            (1000000 <= Quantity r <= 51000000)%Z.
Proof.
  apply (Quantity_range 501 demo_source); [lia | exact demo_source_valid].
Defined.

Lemma Price_cases (k : Z) :
  valid_draw k ->
  exists m, (0 <= m <= 400)%Z /\
            Formula.Price (unit_draw k) == 99 + inject_Z m / 128.
Proof.
  intros Hk. unfold valid_draw in Hk.
  assert (H0 : Java.Math_round (Double.mul (unit_draw 0) 400) = 0%Z)
    by (vm_compute; reflexivity).
  assert (H1 : Java.Math_round (Double.mul (unit_draw MAX_DRAW) 400) = 400%Z)
    by (vm_compute; reflexivity).
  pose proof (scaled_round_le 400 0 k ltac:(lra) ltac:(lia)) as Hlo.
  pose proof (scaled_round_le 400 k MAX_DRAW ltac:(lra) ltac:(unfold MAX_DRAW; lia)) as Hhi.
  rewrite H0 in Hlo. rewrite H1 in Hhi.
  exists (Java.Math_round (Double.mul (unit_draw k) 400)).
  split; [lia |]. unfold Formula.Price.
  set (m := Java.Math_round (Double.mul (unit_draw k) 400)) in *.
  apply Qeq_bool_iff.
  apply (forall_below_spec 401
           (fun m => Qeq_bool (Double.add 99 (Double.div (Double.of_Z m) 128))
                              (99 + inject_Z m / 128)));
    [vm_compute; reflexivity | lia].
Qed.

(** C10: for every generated row, Price is [99 + k/128] for an integer
    [0 <= k <= 400]; in particular [99 <= Price <= 102.125]. *)
Theorem Price_grid (ii : Z) (s : RandomSource) :
  (0 <= ii)%Z -> valid_source s ->
  exists r, synthesize ii s = Some (r, advance 5 s) /\
            (exists k, (0 <= k <= 400)%Z /\ Price r == 99 + inject_Z k / 128) /\
            99 <= Price r /\ Price r <= 817 # 8.
Proof.
  intros Hii Hs. destruct (synthesize_row ii s Hii Hs) as [r [Hr Hspec]].
  exists r. split; [exact Hr |].
  rewrite (row_Price _ _ _ Hspec).
  destruct (Price_cases (s 1%nat) (Hs 1%nat)) as [m [Hm Hp]].
  assert (Hm0 : inject_Z 0 <= inject_Z m) by (rewrite <- Zle_Qle; lia).
  assert (Hm1 : inject_Z m <= inject_Z 400) by (rewrite <- Zle_Qle; lia).
  change (inject_Z 0) with 0 in Hm0. change (inject_Z 400) with 400 in Hm1.
  split; [exists m; split; [lia | exact Hp] |].
  rewrite Hp. unfold Qdiv. change (/ 128) with (1 # 128). split; lra.
Qed.

Lemma Price_grid_witness :
  exists r, synthesize 501 demo_source = Some (r, advance 5 demo_source) /\
            (exists k, (0 <= k <= 400)%Z /\ Price r == 99 + inject_Z k / 128) /\
            99 <= Price r /\ Price r <= 817 # 8.
Proof.
  apply (Price_grid 501 demo_source); [lia | exact demo_source_valid].
Defined.

(** ** Notional *)

Lemma of_Z_quantity (q : Z) :
  (0 <= q <= 51)%Z -> Double.of_Z (q * 1000000) = inject_Z (q * 1000000).
Proof.
  intros Hq. apply Qsame_eq.
  apply (forall_below_spec 52
           (fun q => Qsame (Double.of_Z (q * 1000000)) (inject_Z (q * 1000000))));
    [vm_compute; reflexivity | lia].
Qed.

Lemma Notional_tolerance (q : Z) (p : Q) :
  (1 <= q <= 51)%Z -> 99 <= p ->
  Qabs (Formula.Notional (q * 1000000) p - inject_Z (q * 1000000) * p / 100)
  <= (1 # 2 ^ 51) * (inject_Z (q * 1000000) * p / 100).
Proof.
  intros Hq Hp. unfold Formula.Notional, Double.div, Double.mul.
  rewrite of_Z_quantity by lia.
  assert (Hn : 1000000 <= inject_Z (q * 1000000)).
  { change 1000000 with (inject_Z 1000000). rewrite <- Zle_Qle. lia. }
  set (n := inject_Z (q * 1000000)) in *.
  assert (Hx : 99000000 <= n * p).
  { apply Qle_trans with (n * 99).
    - lra.
    - rewrite !(Qmult_comm n). apply Qmult_le_compat_r; lra. }
  set (x := n * p) in *.
  pose proof (RN_error x ltac:(lra)) as Hy.
  apply Qabs_Qle_condition in Hy.
  change (1 # 2 ^ 53) with (1 # 9007199254740992) in Hy.
  set (y := Double.RN x) in *.
  unfold Qdiv in *. change (/ 100) with (1 # 100) in *.
  pose proof (RN_error (y * (1 # 100)) ltac:(lra)) as Hz.
  apply Qabs_Qle_condition in Hz.
  change (1 # 2 ^ 53) with (1 # 9007199254740992) in Hz.
  change (1 # 2 ^ 51) with (1 # 2251799813685248).
  apply Qabs_Qle_condition. lra.
Qed.

Lemma row_Notional_own (ii : Z) (s : RandomSource) (r : ExecutionRecord) :
  (0 <= ii)%Z -> valid_source s -> RowSpec ii s r -> NotionalOwnRow r.
Proof.
  intros Hii Hs Hspec. unfold NotionalOwnRow.
  split; [exact (row_Notional _ _ _ Hspec) |].
  rewrite (row_Notional _ _ _ Hspec).
  destruct (Quantity_cases (s 0%nat) (Hs 0%nat)) as [q [Hq Hqty]].
  destruct (Price_cases (s 1%nat) (Hs 1%nat)) as [m [Hm Hpr]].
  rewrite (row_Quantity _ _ _ Hspec), Hqty.
  apply Notional_tolerance; [exact Hq |].
  rewrite (row_Price _ _ _ Hspec), Hpr.
  assert (Hm0 : inject_Z 0 <= inject_Z m) by (rewrite <- Zle_Qle; lia).
  change (inject_Z 0) with 0 in Hm0.
  unfold Qdiv. change (/ 128) with (1 # 128). lra.
Qed.

(** C5: in every row of the table, Notional is [Quantity * Price / 100.0]
    computed from the Quantity and Price of that same row: it is the
    value of the binary64 expression on the row's own columns, and agrees
    with the exact quotient to a relative error of at most 2^-51. *)
Theorem Notional_from_own_row (n : nat) (s : RandomSource) :
  valid_source s ->
  exists rows s', executions n s = Some (rows, s') /\
                  List.length rows = n /\ Forall NotionalOwnRow rows.
Proof.
  intros Hs. unfold executions.
  apply (rows_from_Forall NotionalOwnRow row_Notional_own n 0 s); [lia | exact Hs].
Qed.

Lemma Notional_from_own_row_witness :
  exists rows s', executions 3 demo_source = Some (rows, s') /\
                  List.length rows = 3%nat /\ Forall NotionalOwnRow rows.
Proof.
  apply (Notional_from_own_row 3 demo_source). exact demo_source_valid.
Defined.

(** ** Distribution of the random picks *)

Lemma count_below_succ (p : Z -> bool) (n : N) :
  count_below p (N.succ n) =
  if p (Z.of_N n) then (count_below p n + 1)%Z else count_below p n.
Proof. unfold count_below. rewrite N.peano_rect_succ. reflexivity. Qed.

Example count_below_small : count_below (fun k => (k <? 3)%Z) 5 = 3%Z.
Proof. reflexivity. Qed.

(** An event that is an interval of draws is counted by its length. *)
Lemma count_below_interval (p : Z -> bool) (lo hi : Z) (n0 : N) :
  (0 <= lo <= hi)%Z -> (hi <= Z.of_N n0)%Z ->
  (forall k, (0 <= k < Z.of_N n0)%Z -> p k = (lo <=? k)%Z && (k <? hi)%Z) ->
  count_below p n0 = (hi - lo)%Z.
Proof.
  intros Hlo Hhi Hp.
  assert (Hgen : forall n, (n <= n0)%N ->
                 count_below p n = Z.max 0 (Z.min (Z.of_N n) hi - lo)).
  { intros n. induction n as [| n IH] using N.peano_ind; intros Hn.
    - unfold count_below. rewrite N.peano_rect_base. lia.
    - rewrite count_below_succ, IH by lia.
      rewrite Hp by lia.
      destruct (Z.leb_spec lo (Z.of_N n)); destruct (Z.ltb_spec (Z.of_N n) hi);
        cbn [andb]; lia. }
  rewrite Hgen by lia. lia.
Qed.

Ltac round_on c a b j :=
  apply (scaled_round_between c a b _ j);
  [lra | lia | lia | vm_compute; reflexivity | vm_compute; reflexivity].

Lemma ExecStatus_index_cases (k : Z) :
  valid_draw k ->
  (k < 1125899906842624 /\ Formula.ExecStatus_index (unit_draw k) = 0)%Z \/
  (1125899906842624 <= k < 3377699720527872 /\
   Formula.ExecStatus_index (unit_draw k) = 1)%Z \/
  (3377699720527872 <= k < 5629499534213120 /\
   Formula.ExecStatus_index (unit_draw k) = 2)%Z \/
  (5629499534213120 <= k < 7881299347898368 /\
   Formula.ExecStatus_index (unit_draw k) = 3)%Z \/
  (7881299347898368 <= k /\ Formula.ExecStatus_index (unit_draw k) = 4)%Z.
Proof.
  intros Hk. rewrite (proj1 (ExecStatus_index_range k Hk)).
  unfold valid_draw in Hk. change (2 ^ 53)%Z with 9007199254740992%Z in Hk.
  assert (Hc : (k < 1125899906842624 \/ 1125899906842624 <= k < 3377699720527872 \/
                3377699720527872 <= k < 5629499534213120 \/
                5629499534213120 <= k < 7881299347898368 \/
                7881299347898368 <= k)%Z) by lia.
  destruct Hc as [H | [H | [H | [H | H]]]].
  - left. split; [lia |]. round_on 4 0%Z 1125899906842623%Z 0%Z.
  - right; left. split; [lia |].
    round_on 4 1125899906842624%Z 3377699720527871%Z 1%Z.
  - right; right; left. split; [lia |].
    round_on 4 3377699720527872%Z 5629499534213119%Z 2%Z.
  - right; right; right; left. split; [lia |].
    round_on 4 5629499534213120%Z 7881299347898367%Z 3%Z.
  - right; right; right; right. split; [lia |].
    round_on 4 7881299347898368%Z 9007199254740991%Z 4%Z.
Qed.

Ltac decide_interval :=
  repeat match goal with
    | |- context [(?a <=? ?b)%Z] => destruct (Z.leb_spec a b)
    | |- context [(?a <? ?b)%Z] => destruct (Z.ltb_spec a b)
    end;
  try lia; reflexivity.

Lemma status_FILLED (k : Z) :
  valid_draw k -> status_is "FILLED" k = (0 <=? k)%Z && (k <? 5629499534213120)%Z.
Proof.
  intros Hk. unfold status_is, Formula.ExecStatus.
  destruct (ExecStatus_index_cases k Hk) as [H | [H | [H | [H | H]]]];
    destruct H as [Hr ->]; unfold valid_draw in Hk; decide_interval.
Qed.

Lemma status_PARTIAL (k : Z) :
  valid_draw k ->
  status_is "PARTIAL" k = (5629499534213120 <=? k)%Z && (k <? 7881299347898368)%Z.
Proof.
  intros Hk. unfold status_is, Formula.ExecStatus.
  destruct (ExecStatus_index_cases k Hk) as [H | [H | [H | [H | H]]]];
    destruct H as [Hr ->]; unfold valid_draw in Hk; decide_interval.
Qed.

Lemma status_REJECTED (k : Z) :
  valid_draw k ->
  status_is "REJECTED" k = (7881299347898368 <=? k)%Z && (k <? 9007199254740992)%Z.
Proof.
  intros Hk. unfold status_is, Formula.ExecStatus.
  destruct (ExecStatus_index_cases k Hk) as [H | [H | [H | [H | H]]]];
    destruct H as [Hr ->]; unfold valid_draw in Hk;
    change (2 ^ 53)%Z with 9007199254740992%Z in Hk; decide_interval.
Qed.

Lemma probability_interval (p : Z -> bool) (lo hi : Z) :
  (0 <= lo <= hi)%Z -> (hi <= 9007199254740992)%Z ->
  (forall k, valid_draw k -> p k = (lo <=? k)%Z && (k <? hi)%Z) ->
  probability p == (hi - lo) # 2 ^ 53.
Proof.
  intros Hlo Hhi Hp. unfold probability.
  rewrite (count_below_interval p lo hi DRAWS Hlo).
  - reflexivity.
  - change (Z.of_N DRAWS) with 9007199254740992%Z. exact Hhi.
  - intros k Hk. apply Hp. unfold valid_draw.
    change (Z.of_N DRAWS) with 9007199254740992%Z in Hk.
    change (2 ^ 53)%Z with 9007199254740992%Z. exact Hk.
Qed.

(** C2: the ExecStatus index [round(u * 4)] is not uniform over the five
    slots of the table: the first and the last slot get half the weight of
    the others.  FILLED has probability 5/8, PARTIAL 1/4 and REJECTED 1/8,
    instead of 3/5, 1/5 and 1/5; the draw u = 13/16, in the last fifth of
    [0,1), selects PARTIAL. *)
Theorem ExecStatus_probabilities :
  probability (status_is "FILLED") == 5 # 8 /\
  probability (status_is "PARTIAL") == 1 # 4 /\
  probability (status_is "REJECTED") == 1 # 8 /\
  3 # 5 < probability (status_is "FILLED") /\
  probability (status_is "REJECTED") < 1 # 5 /\
  probability (status_is "REJECTED") < probability (status_is "PARTIAL") /\
  Formula.ExecStatus (unit_draw (13 * 2 ^ 49)) = Some "PARTIAL"%string.
Proof.
  assert (HF := probability_interval (status_is "FILLED") 0 5629499534213120
                  ltac:(lia) ltac:(lia) status_FILLED).
  assert (HP := probability_interval (status_is "PARTIAL") 5629499534213120
                  7881299347898368 ltac:(lia) ltac:(lia) status_PARTIAL).
  assert (HR := probability_interval (status_is "REJECTED") 7881299347898368
                  9007199254740992 ltac:(lia) ltac:(lia) status_REJECTED).
  split; [rewrite HF; reflexivity |].
  split; [rewrite HP; reflexivity |].
  split; [rewrite HR; reflexivity |].
  split; [rewrite HF; reflexivity |].
  split; [rewrite HR; reflexivity |].
  split; [rewrite HP, HR; reflexivity |].
  vm_compute. reflexivity.
Qed.
Lemma Counterparty_index_cases (k : Z) :
  valid_draw k ->
  (0 <= k < 643371375338643 /\
   Formula.Counterparty_index (unit_draw k) = 0)%Z \/
  (643371375338643 <= k < 1930114126015927 /\
   Formula.Counterparty_index (unit_draw k) = 1)%Z \/
  (1930114126015927 <= k < 3216856876693212 /\
   Formula.Counterparty_index (unit_draw k) = 2)%Z \/
  (3216856876693212 <= k < 4503599627370496 /\
   Formula.Counterparty_index (unit_draw k) = 3)%Z \/
  (4503599627370496 <= k < 5790342378047780 /\
   Formula.Counterparty_index (unit_draw k) = 4)%Z \/
  (5790342378047780 <= k < 7077085128725065 /\
   Formula.Counterparty_index (unit_draw k) = 5)%Z \/
  (7077085128725065 <= k < 8363827879402350 /\
   Formula.Counterparty_index (unit_draw k) = 6)%Z \/
  (8363827879402350 <= k < 9007199254740992 /\
   Formula.Counterparty_index (unit_draw k) = 7)%Z.
Proof.
  intros Hk. rewrite (proj1 (Counterparty_index_range k Hk)).
  unfold valid_draw in Hk. change (2 ^ 53)%Z with 9007199254740992%Z in Hk.
  assert (Hc : (0 <= k < 643371375338643 \/
                643371375338643 <= k < 1930114126015927 \/
                1930114126015927 <= k < 3216856876693212 \/
                3216856876693212 <= k < 4503599627370496 \/
                4503599627370496 <= k < 5790342378047780 \/
                5790342378047780 <= k < 7077085128725065 \/
                7077085128725065 <= k < 8363827879402350 \/
                8363827879402350 <= k < 9007199254740992)%Z) by lia.
  destruct Hc as [H | [H | [H | [H | [H | [H | [H | H]]]]]]].
  - left. split; [lia |].
    round_on 7 0%Z 643371375338642%Z 0%Z.
  - right; left. split; [lia |].
    round_on 7 643371375338643%Z 1930114126015926%Z 1%Z.
  - right; right; left. split; [lia |].
    round_on 7 1930114126015927%Z 3216856876693211%Z 2%Z.
  - right; right; right; left. split; [lia |].
    round_on 7 3216856876693212%Z 4503599627370495%Z 3%Z.
  - right; right; right; right; left. split; [lia |].
    round_on 7 4503599627370496%Z 5790342378047779%Z 4%Z.
  - right; right; right; right; right; left. split; [lia |].
    round_on 7 5790342378047780%Z 7077085128725064%Z 5%Z.
  - right; right; right; right; right; right; left. split; [lia |].
    round_on 7 7077085128725065%Z 8363827879402349%Z 6%Z.
  - right; right; right; right; right; right; right. split; [lia |].
    round_on 7 8363827879402350%Z 9007199254740991%Z 7%Z.
Qed.

Lemma counterparty_GS (k : Z) :
  valid_draw k ->
  counterparty_is "GS" k = (0 <=? k)%Z && (k <? 643371375338643)%Z.
Proof.
  intros Hk. unfold counterparty_is, Formula.Counterparty.
  destruct (Counterparty_index_cases k Hk) as [H | [H | [H | [H | [H | [H | [H | H]]]]]]];
    destruct H as [Hr ->]; decide_interval.
Qed.

Lemma counterparty_JPM (k : Z) :
  valid_draw k ->
  counterparty_is "JPM" k = (643371375338643 <=? k)%Z && (k <? 1930114126015927)%Z.
Proof.
  intros Hk. unfold counterparty_is, Formula.Counterparty.
  destruct (Counterparty_index_cases k Hk) as [H | [H | [H | [H | [H | [H | [H | H]]]]]]];
    destruct H as [Hr ->]; decide_interval.
Qed.

Lemma counterparty_MS (k : Z) :
  valid_draw k ->
  counterparty_is "MS" k = (1930114126015927 <=? k)%Z && (k <? 3216856876693212)%Z.
Proof.
  intros Hk. unfold counterparty_is, Formula.Counterparty.
  destruct (Counterparty_index_cases k Hk) as [H | [H | [H | [H | [H | [H | [H | H]]]]]]];
    destruct H as [Hr ->]; decide_interval.
Qed.

Lemma counterparty_BARC (k : Z) :
  valid_draw k ->
  counterparty_is "BARC" k = (3216856876693212 <=? k)%Z && (k <? 4503599627370496)%Z.
Proof.
  intros Hk. unfold counterparty_is, Formula.Counterparty.
  destruct (Counterparty_index_cases k Hk) as [H | [H | [H | [H | [H | [H | [H | H]]]]]]];
    destruct H as [Hr ->]; decide_interval.
Qed.

Lemma counterparty_CITI (k : Z) :
  valid_draw k ->
  counterparty_is "CITI" k = (4503599627370496 <=? k)%Z && (k <? 5790342378047780)%Z.
Proof.
  intros Hk. unfold counterparty_is, Formula.Counterparty.
  destruct (Counterparty_index_cases k Hk) as [H | [H | [H | [H | [H | [H | [H | H]]]]]]];
    destruct H as [Hr ->]; decide_interval.
Qed.

Lemma counterparty_BofA (k : Z) :
  valid_draw k ->
  counterparty_is "BofA" k = (5790342378047780 <=? k)%Z && (k <? 7077085128725065)%Z.
Proof.
  intros Hk. unfold counterparty_is, Formula.Counterparty.
  destruct (Counterparty_index_cases k Hk) as [H | [H | [H | [H | [H | [H | [H | H]]]]]]];
    destruct H as [Hr ->]; decide_interval.
Qed.

Lemma counterparty_HSBC (k : Z) :
  valid_draw k ->
  counterparty_is "HSBC" k = (7077085128725065 <=? k)%Z && (k <? 8363827879402350)%Z.
Proof.
  intros Hk. unfold counterparty_is, Formula.Counterparty.
  destruct (Counterparty_index_cases k Hk) as [H | [H | [H | [H | [H | [H | [H | H]]]]]]];
    destruct H as [Hr ->]; decide_interval.
Qed.

Lemma counterparty_DB (k : Z) :
  valid_draw k ->
  counterparty_is "DB" k = (8363827879402350 <=? k)%Z && (k <? 9007199254740992)%Z.
Proof.
  intros Hk. unfold counterparty_is, Formula.Counterparty.
  destruct (Counterparty_index_cases k Hk) as [H | [H | [H | [H | [H | [H | [H | H]]]]]]];
    destruct H as [Hr ->]; decide_interval.
Qed.

(** C3: the Counterparty index [round(u * 7)] is not uniform over the
    eight values: GS and DB, at the two ends of the table, are selected
    with probability about 1/14 and the six values between them with
    probability about 1/7; none has probability 1/8.  The draw u = 3/32,
    in the first eighth of [0,1), selects JPM, the second value. *)
Theorem Counterparty_probabilities :
  probability (counterparty_is "GS") == 643371375338643 # 2 ^ 53 /\
  probability (counterparty_is "JPM") == 1286742750677284 # 2 ^ 53 /\
  probability (counterparty_is "MS") == 1286742750677285 # 2 ^ 53 /\
  probability (counterparty_is "BARC") == 1286742750677284 # 2 ^ 53 /\
  probability (counterparty_is "CITI") == 1286742750677284 # 2 ^ 53 /\
  probability (counterparty_is "BofA") == 1286742750677285 # 2 ^ 53 /\
  probability (counterparty_is "HSBC") == 1286742750677285 # 2 ^ 53 /\
  probability (counterparty_is "DB") == 643371375338642 # 2 ^ 53 /\
  probability (counterparty_is "GS") < 1 # 13 /\
  1 # 8 < probability (counterparty_is "JPM") /\
  1 # 8 < probability (counterparty_is "MS") /\
  1 # 8 < probability (counterparty_is "BARC") /\
  1 # 8 < probability (counterparty_is "CITI") /\
  1 # 8 < probability (counterparty_is "BofA") /\
  1 # 8 < probability (counterparty_is "HSBC") /\
  probability (counterparty_is "DB") < 1 # 13 /\
  Formula.Counterparty (unit_draw (3 * 2 ^ 48)) = Some "JPM"%string.
Proof.
  assert (H0 := probability_interval (counterparty_is "GS") 0
                  643371375338643 ltac:(lia) ltac:(lia) counterparty_GS).
  assert (H1 := probability_interval (counterparty_is "JPM") 643371375338643
                  1930114126015927 ltac:(lia) ltac:(lia) counterparty_JPM).
  assert (H2 := probability_interval (counterparty_is "MS") 1930114126015927
                  3216856876693212 ltac:(lia) ltac:(lia) counterparty_MS).
  assert (H3 := probability_interval (counterparty_is "BARC") 3216856876693212
                  4503599627370496 ltac:(lia) ltac:(lia) counterparty_BARC).
  assert (H4 := probability_interval (counterparty_is "CITI") 4503599627370496
                  5790342378047780 ltac:(lia) ltac:(lia) counterparty_CITI).
  assert (H5 := probability_interval (counterparty_is "BofA") 5790342378047780
                  7077085128725065 ltac:(lia) ltac:(lia) counterparty_BofA).
  assert (H6 := probability_interval (counterparty_is "HSBC") 7077085128725065
                  8363827879402350 ltac:(lia) ltac:(lia) counterparty_HSBC).
  assert (H7 := probability_interval (counterparty_is "DB") 8363827879402350
                  9007199254740992 ltac:(lia) ltac:(lia) counterparty_DB).
  split; [rewrite H0; reflexivity |].
  split; [rewrite H1; reflexivity |].
  split; [rewrite H2; reflexivity |].
  split; [rewrite H3; reflexivity |].
  split; [rewrite H4; reflexivity |].
  split; [rewrite H5; reflexivity |].
  split; [rewrite H6; reflexivity |].
  split; [rewrite H7; reflexivity |].
  split; [rewrite H0; reflexivity |].
  split; [rewrite H1; reflexivity |].
  split; [rewrite H2; reflexivity |].
  split; [rewrite H3; reflexivity |].
  split; [rewrite H4; reflexivity |].
  split; [rewrite H5; reflexivity |].
  split; [rewrite H6; reflexivity |].
  split; [rewrite H7; reflexivity |].
  vm_compute. reflexivity.
Qed.

(** * Further properties of the feed *)

(** ** Identifiers *)

Lemma parse_digits_zeros (n : nat) (s : string) :
  parse_digits (Java.zeros n ++ s) = parse_digits s.
Proof.
  induction n as [| n IH]; [reflexivity |].
  rewrite <- IH. unfold parse_digits.
  cbn [Java.zeros append NilEmpty.uint_of_string].
  destruct (NilEmpty.uint_of_string (Java.zeros n ++ s)) as [d |]; reflexivity.
Qed.

Lemma decimal_nonempty (n : Z) : Java.decimal n <> EmptyString.
Proof.
  unfold Java.decimal. destruct (N.to_uint (Z.to_N n)); cbn; discriminate.
Qed.

Lemma parse_digits_decimal (n : Z) :
  parse_digits (Java.decimal n) = Some (Z.to_N n).
Proof.
  unfold parse_digits, Java.decimal.
  pose proof (DecimalN.Unsigned.of_to (Z.to_N n)) as Hof.
  destruct (N.to_uint (Z.to_N n)) as [| d | d | d | d | d | d | d | d | d | d] eqn:Hd;
    [cbn in *; congruence | ..];
    unfold NilZero.string_of_uint; rewrite NilEmpty.usu; cbn [option_map];
    congruence.
Qed.

Lemma parse_int_unsigned (s : string) (n : N) :
  s <> EmptyString -> parse_digits s = Some n -> parse_int s = Some (Z.of_N n).
Proof.
  intros Hne Hp. destruct s as [| c rest]; [contradiction |].
  unfold parse_int. destruct (Ascii.eqb_spec c "-") as [-> | _].
  - unfold parse_digits in Hp. cbn [NilEmpty.uint_of_string] in Hp.
    destruct (NilEmpty.uint_of_string rest); cbn in Hp; discriminate.
  - rewrite Hp. reflexivity.
Qed.

Lemma append_nonempty_r (a b : string) : b <> EmptyString -> (a ++ b)%string <> EmptyString.
Proof. destruct a; cbn; [auto | discriminate]. Qed.

(** [String.format] with a zero-padded width loses nothing: the number
    can be read back from the text, whatever the width. *)
Lemma parse_format (width : nat) (x : Z) :
  parse_int (Java.String_format_0d width x) = Some x.
Proof.
  unfold Java.String_format_0d.
  destruct (Z.ltb_spec x 0) as [Hneg | Hpos].
  - cbn [append parse_int]. change (Ascii.eqb "-" "-") with true. cbv iota.
    rewrite parse_digits_zeros, parse_digits_decimal. cbn [option_map].
    f_equal. lia.
  - cbn [append].
    rewrite (parse_int_unsigned _ (Z.to_N (Z.abs x))).
    + f_equal. lia.
    + apply append_nonempty_r, decimal_nonempty.
    + rewrite parse_digits_zeros. apply parse_digits_decimal.
Qed.

(** X1: different row indexes never share an ExecId: beyond six digits
    the number is printed in full, not truncated. *)
Theorem ExecId_injective (ii jj : Z) :
  ii <> jj -> Formula.ExecId ii <> Formula.ExecId jj.
Proof.
  intros Hne Heq. apply Hne. unfold Formula.ExecId in Heq.
  cbn [append] in Heq. injection Heq as Heq.
  apply (f_equal parse_int) in Heq. rewrite !parse_format in Heq.
  congruence.
Qed.

Lemma ExecId_injective_witness : Formula.ExecId 999999 <> Formula.ExecId 1999999.
Proof. apply (ExecId_injective 999999 1999999). lia. Defined.

(** X2: OrderIds recycle with period 500: two non-negative rows carry
    the same OrderId exactly when their indexes agree modulo 500. *)
Theorem OrderId_period (ii jj : Z) :
  (0 <= ii)%Z -> (0 <= jj)%Z ->
  (Formula.OrderId ii = Formula.OrderId jj <-> (ii mod 500 = jj mod 500)%Z).
Proof.
  intros Hii Hjj. unfold Formula.OrderId.
  destruct (index_mod ii 500 Hii ltac:(lia)) as [Ei _].
  destruct (index_mod jj 500 Hjj ltac:(lia)) as [Ej _].
  rewrite Ei, Ej. split.
  - intros Heq. cbn [append] in Heq. injection Heq as Heq.
    apply (f_equal parse_int) in Heq. rewrite !parse_format in Heq. congruence.
  - intros ->. reflexivity.
Qed.

Lemma OrderId_period_witness :
  Formula.OrderId 7 = Formula.OrderId 1507 <-> (7 mod 500 = 1507 mod 500)%Z.
Proof. apply (OrderId_period 7 1507); lia. Defined.

(** ** Yield and the range of Notional *)

Lemma Yield_cases (k : Z) :
  valid_draw k ->
  exists m, (0 <= m <= 200)%Z /\
            Formula.Yield (unit_draw k)
            = Double.add (7 # 2) (Double.div (Double.of_Z m) 100).
Proof.
  intros Hk. unfold valid_draw in Hk.
  assert (H0 : Java.Math_round (Double.mul (unit_draw 0) 200) = 0%Z)
    by (vm_compute; reflexivity).
  assert (H1 : Java.Math_round (Double.mul (unit_draw MAX_DRAW) 200) = 200%Z)
    by (vm_compute; reflexivity).
  pose proof (scaled_round_le 200 0 k ltac:(lra) ltac:(lia)) as Hlo.
  pose proof (scaled_round_le 200 k MAX_DRAW ltac:(lra) ltac:(unfold MAX_DRAW; lia)) as Hhi.
  rewrite H0 in Hlo. rewrite H1 in Hhi.
  exists (Java.Math_round (Double.mul (unit_draw k) 200)). split; [lia | reflexivity].
Qed.

(** X3: for every generated row, Yield lies in [3.5, 5.5] and is at most
    2^-50 away from [3.5 + k/100] for an integer [0 <= k <= 200]. *)
Theorem Yield_range (ii : Z) (s : RandomSource) :
  (0 <= ii)%Z -> valid_source s ->
  exists r, synthesize ii s = Some (r, advance 5 s) /\
            7 # 2 <= Yield r /\ Yield r <= 11 # 2 /\
            exists k, (0 <= k <= 200)%Z /\
                      Qabs (Yield r - ((7 # 2) + inject_Z k / 100)) <= 1 # 2 ^ 50.
Proof.
  intros Hii Hs. destruct (synthesize_row ii s Hii Hs) as [r [Hr Hspec]].
  exists r. split; [exact Hr |].
  rewrite (row_Yield _ _ _ Hspec).
  destruct (Yield_cases (s 2%nat) (Hs 2%nat)) as [m [Hm ->]].
  pose proof (forall_below_spec 201
    (fun m => let y := Double.add (7 # 2) (Double.div (Double.of_Z m) 100) in
              Qle_bool (7 # 2) y && Qle_bool y (11 # 2)
              && Qle_bool (Qabs (y - ((7 # 2) + inject_Z m / 100))) (1 # 2 ^ 50))
    ltac:(vm_compute; reflexivity) m ltac:(lia)) as Hchk.
  cbv beta zeta in Hchk.
  apply andb_true_iff in Hchk as [Hchk H3].
  apply andb_true_iff in Hchk as [H1 H2].
  apply Qle_bool_iff in H1, H2, H3.
  split; [exact H1 |]. split; [exact H2 |].
  exists m. split; [exact Hm | exact H3].
Qed.

Lemma Yield_range_witness :
  exists r, synthesize 501 demo_source = Some (r, advance 5 demo_source) /\
            7 # 2 <= Yield r /\ Yield r <= 11 # 2 /\
            exists k, (0 <= k <= 200)%Z /\
                      Qabs (Yield r - ((7 # 2) + inject_Z k / 100)) <= 1 # 2 ^ 50.
Proof.
  apply (Yield_range 501 demo_source); [lia | exact demo_source_valid].
Defined.

Lemma Qmult_le_both (a b c d : Q) :
  0 <= a -> a <= b -> 0 <= c -> c <= d -> a * c <= b * d.
Proof.
  intros Ha Hab Hc Hcd. apply Qle_trans with (b * c).
  - apply Qmult_le_compat_r; assumption.
  - rewrite !(Qmult_comm b). apply Qmult_le_compat_r; lra.
Qed.

(** X4: for every generated row, Notional lies between 990,000 (one
    million at price 99) and 52,083,750 (51 million at price 102.125). *)
Theorem Notional_range (ii : Z) (s : RandomSource) :
  (0 <= ii)%Z -> valid_source s ->
  exists r, synthesize ii s = Some (r, advance 5 s) /\
            990000 <= Notional r /\ Notional r <= 52083750.
Proof.
  intros Hii Hs. destruct (synthesize_row ii s Hii Hs) as [r [Hr Hspec]].
  exists r. split; [exact Hr |].
  rewrite (row_Notional _ _ _ Hspec), (row_Quantity _ _ _ Hspec).
  destruct (Quantity_cases (s 0%nat) (Hs 0%nat)) as [q [Hq ->]].
  assert (Hp : 99 <= Price r /\ Price r <= 817 # 8).
  { rewrite (row_Price _ _ _ Hspec).
    destruct (Price_cases (s 1%nat) (Hs 1%nat)) as [m [Hm ->]].
    assert (Hm0 : inject_Z 0 <= inject_Z m) by (rewrite <- Zle_Qle; lia).
    assert (Hm1 : inject_Z m <= inject_Z 400) by (rewrite <- Zle_Qle; lia).
    change (inject_Z 0) with 0 in Hm0. change (inject_Z 400) with 400 in Hm1.
    unfold Qdiv. change (/ 128) with (1 # 128). split; lra. }
  destruct Hp as [Hp0 Hp1]. set (p := Price r) in *.
  unfold Formula.Notional, Double.div, Double.mul.
  rewrite of_Z_quantity by lia.
  assert (Hn0 : 1000000 <= inject_Z (q * 1000000)).
  { change 1000000 with (inject_Z 1000000). rewrite <- Zle_Qle. lia. }
  assert (Hn1 : inject_Z (q * 1000000) <= 51000000).
  { change 51000000 with (inject_Z 51000000). rewrite <- Zle_Qle. lia. }
  set (n := inject_Z (q * 1000000)) in *.
  assert (Hx0 : 99000000 <= n * p).
  { change 99000000 with (1000000 * 99). apply Qmult_le_both; lra. }
  assert (Hx1 : n * p <= 5208375000).
  { setoid_replace 5208375000 with (51000000 * (817 # 8)) by reflexivity.
    apply Qmult_le_both; lra. }
  pose proof (RN_le 99000000 (n * p) ltac:(lra) Hx0) as Hy0.
  pose proof (RN_le (n * p) 5208375000 ltac:(lra) Hx1) as Hy1.
  change (Double.RN 99000000) with 99000000 in Hy0.
  change (Double.RN 5208375000) with 5208375000 in Hy1.
  set (y := Double.RN (n * p)) in *.
  unfold Qdiv. change (/ 100) with (1 # 100).
  pose proof (RN_le 990000 (y * (1 # 100)) ltac:(lra) ltac:(lra)) as Hz0.
  pose proof (RN_le (y * (1 # 100)) 52083750 ltac:(lra) ltac:(lra)) as Hz1.
  change (Double.RN 990000) with 990000 in Hz0.
  change (Double.RN 52083750) with 52083750 in Hz1.
  split; assumption.
Qed.

Lemma Notional_range_witness :
  exists r, synthesize 501 demo_source = Some (r, advance 5 demo_source) /\
            990000 <= Notional r /\ Notional r <= 52083750.
Proof.
  apply (Notional_range 501 demo_source); [lia | exact demo_source_valid].
Defined.

(** ** Distribution of Quantity *)

Lemma Quantity_round (k : Z) :
  valid_draw k ->
  (1 <= quantity_round k <= 51)%Z /\
  Formula.Quantity (unit_draw k) = (quantity_round k * 1000000)%Z.
Proof.
  intros Hk. unfold valid_draw in Hk. unfold quantity_round.
  assert (H0 : Java.Math_round (Double.add (Double.mul (unit_draw 0) 50) 1) = 1%Z)
    by (vm_compute; reflexivity).
  assert (H1 : Java.Math_round (Double.add (Double.mul (unit_draw MAX_DRAW) 50) 1) = 51%Z)
    by (vm_compute; reflexivity).
  pose proof (quantity_round_le 0 k ltac:(lia)) as Hlo.
  pose proof (quantity_round_le k MAX_DRAW ltac:(unfold MAX_DRAW; lia)) as Hhi.
  rewrite H0 in Hlo. rewrite H1 in Hhi.
  split; [lia |]. unfold Formula.Quantity.
  rewrite to_long_small by lia. apply to_int_small. lia.
Qed.

Lemma cuts_checked (j : Z) : (1 <= j <= 51)%Z -> cut_checked j = true.
Proof.
  intros Hj. apply (forall_below_spec 52 cut_checked); [vm_compute; reflexivity | lia].
Qed.

Lemma cut_range (j : Z) : (0 <= j <= 51)%Z -> (0 <= cut j <= 2 ^ 53)%Z.
Proof.
  intros Hj.
  pose proof (forall_below_spec 52
    (fun j => (0 <=? cut j)%Z && (cut j <=? 2 ^ 53)%Z)
    ltac:(vm_compute; reflexivity) j ltac:(lia)) as H.
  cbv beta in H. apply andb_true_iff in H as [H1 H2].
  apply Z.leb_le in H1, H2. lia.
Qed.

Lemma cut_51 : cut 51 = (2 ^ 53)%Z.
Proof. reflexivity. Qed.

Lemma cut_0 : cut 0 = 0%Z.
Proof. reflexivity. Qed.

(** The draws that give quantity [j] million are those from cut [j-1]
    up to, not including, cut [j]. *)
Lemma quantity_is_interval (j k : Z) :
  (1 <= j <= 51)%Z -> valid_draw k ->
  quantity_is (j * 1000000) k = (cut (j - 1) <=? k)%Z && (k <? cut j)%Z.
Proof.
  intros Hj Hk. destruct (Quantity_round k Hk) as [Hr Hq].
  unfold quantity_is. rewrite Hq. clear Hq.
  pose proof (cuts_checked j Hj) as Hc. unfold cut_checked in Hc.
  apply orb_true_iff in Hc. destruct Hc as [Hc | Hc]; [apply Z.eqb_eq in Hc; lia |].
  apply andb_true_iff in Hc as [Hc Hup].
  apply andb_true_iff in Hc as [Hc Hdn].
  apply andb_true_iff in Hc as [Hc Hhi].
  apply andb_true_iff in Hc as [Hlt Hlo].
  apply Z.ltb_lt in Hlt. apply Z.eqb_eq in Hlo, Hhi.
  pose proof (cut_range (j - 1) ltac:(lia)) as Ra.
  pose proof (cut_range j ltac:(lia)) as Rb.
  unfold valid_draw in Hk.
  assert (M1 : (cut (j - 1) <= k -> j <= quantity_round k)%Z).
  { intros H. apply Z.le_trans with (quantity_round (cut (j - 1))).
    - rewrite Hlo. apply Z.le_refl.
    - apply quantity_round_le. lia. }
  assert (M2 : (k < cut j -> quantity_round k <= j)%Z).
  { intros H. apply Z.le_trans with (quantity_round (cut j - 1)).
    - apply quantity_round_le. lia.
    - rewrite Hhi. apply Z.le_refl. }
  assert (M3 : (cut j <= k -> j + 1 <= quantity_round k)%Z).
  { intros H. apply orb_true_iff in Hup. destruct Hup as [E | Hup].
    - apply Z.eqb_eq in E.
      assert (Hc51 : cut j = (2 ^ 53)%Z) by (rewrite E; exact cut_51). lia.
    - apply Z.eqb_eq in Hup.
      apply Z.le_trans with (quantity_round (cut j)).
      + rewrite Hup. apply Z.le_refl.
      + apply quantity_round_le. lia. }
  assert (M4 : (k < cut (j - 1) -> quantity_round k <= j - 1)%Z).
  { intros H. apply orb_true_iff in Hdn. destruct Hdn as [E | Hdn].
    - apply Z.eqb_eq in E.
      assert (Hc0 : cut (j - 1) = 0%Z) by (rewrite E; exact cut_0). lia.
    - apply Z.eqb_eq in Hdn.
      apply Z.le_trans with (quantity_round (cut (j - 1) - 1)).
      + apply quantity_round_le. lia.
      + rewrite Hdn. apply Z.le_refl. }
  clear Hlo Hhi Hup Hdn Hr Ra Rb Hlt.
  generalize dependent (quantity_round k). intros qk M1 M2 M3 M4.
  generalize dependent (cut (j - 1)). intros a M1 M4.
  generalize dependent (cut j). intros b M2 M3.
  destruct (Z.leb_spec a k) as [Ha | Ha];
    destruct (Z.ltb_spec k b) as [Hb | Hb]; cbn [andb];
    first [apply Z.eqb_eq; lia | apply Z.eqb_neq; lia].
Qed.

(** X5: the distribution of Quantity.  Quantity is [j] million on the
    draws between two consecutive cuts; the two extreme values, 1 and 51
    million, each have probability below 1/99 (and above 1/101), half
    that of every value in between, which lies between 1/51 and 1/49. *)
Theorem Quantity_distribution (j : Z) :
  (1 <= j <= 51)%Z ->
  probability (quantity_is (j * 1000000)) == (cut j - cut (j - 1)) # 2 ^ 53 /\
  ((j = 1 \/ j = 51)%Z ->
   1 # 101 < probability (quantity_is (j * 1000000)) /\
   probability (quantity_is (j * 1000000)) < 1 # 99) /\
  ((1 < j < 51)%Z ->
   1 # 51 < probability (quantity_is (j * 1000000)) /\
   probability (quantity_is (j * 1000000)) < 1 # 49).
Proof.
  intros Hj.
  pose proof (cut_range (j - 1) ltac:(lia)) as Ra.
  pose proof (cut_range j ltac:(lia)) as Rb.
  pose proof (cuts_checked j Hj) as Hc. unfold cut_checked in Hc.
  apply orb_true_iff in Hc. destruct Hc as [Hc | Hc]; [apply Z.eqb_eq in Hc; lia |].
  repeat (apply andb_true_iff in Hc as [Hc _]). apply Z.ltb_lt in Hc.
  assert (HP := probability_interval (quantity_is (j * 1000000)) (cut (j - 1)) (cut j)
                  ltac:(lia) ltac:(change 9007199254740992%Z with (2 ^ 53)%Z; lia)
                  (fun k Hk => quantity_is_interval j k Hj Hk)).
  split; [exact HP |].
  pose proof (forall_below_spec 52
    (fun j => (j =? 0)%Z ||
              (if ((j =? 1) || (j =? 51))%Z
               then (2 ^ 53 <? 101 * (cut j - cut (j - 1)))%Z
                    && (99 * (cut j - cut (j - 1)) <? 2 ^ 53)%Z
               else (2 ^ 53 <? 51 * (cut j - cut (j - 1)))%Z
                    && (49 * (cut j - cut (j - 1)) <? 2 ^ 53)%Z))
    ltac:(vm_compute; reflexivity) j ltac:(lia)) as Hsz.
  cbv beta in Hsz.
  destruct (Z.eqb_spec j 0) as [? | _]; [lia |]. cbn [orb] in Hsz.
  assert (Hpos : (2 ^ 53)%positive = 9007199254740992%positive) by reflexivity.
  split; intros Hcase; rewrite HP; unfold Qlt; cbn [Qnum Qden]; rewrite Hpos.
  - assert (Hb : ((j =? 1) || (j =? 51))%Z = true) by
      (destruct Hcase as [E | E]; rewrite E; reflexivity).
    rewrite Hb in Hsz. apply andb_true_iff in Hsz as [H1 H2].
    apply Z.ltb_lt in H1, H2. change (2 ^ 53)%Z with 9007199254740992%Z in H1, H2. lia.
  - assert (Hb : ((j =? 1) || (j =? 51))%Z = false).
    { destruct (Z.eqb_spec j 1); [lia |]. destruct (Z.eqb_spec j 51); [lia | reflexivity]. }
    rewrite Hb in Hsz. apply andb_true_iff in Hsz as [H1 H2].
    apply Z.ltb_lt in H1, H2. change (2 ^ 53)%Z with 9007199254740992%Z in H1, H2. lia.
Qed.

Lemma Quantity_distribution_witness :
  probability (quantity_is (51 * 1000000)) == (cut 51 - cut (51 - 1)) # 2 ^ 53 /\
  ((51 = 1 \/ 51 = 51)%Z ->
   1 # 101 < probability (quantity_is (51 * 1000000)) /\
   probability (quantity_is (51 * 1000000)) < 1 # 99) /\
  ((1 < 51 < 51)%Z ->
   1 # 51 < probability (quantity_is (51 * 1000000)) /\
   probability (quantity_is (51 * 1000000)) < 1 # 49).
Proof. apply (Quantity_distribution 51). lia. Defined.

(** ** Row indexes outside the table's range *)

Lemma rem_negative (ii n : Z) :
  (ii < 0)%Z -> (0 < n)%Z ->
  (- n < Java.rem ii n <= 0)%Z /\ (Java.rem ii n = 0 <-> ii mod n = 0)%Z.
Proof.
  intros Hii Hn. unfold Java.rem.
  assert (Hrem : Z.rem ii n = (- ((- ii) mod n))%Z).
  { rewrite <- (Z.opp_involutive ii) at 1.
    rewrite Z.rem_opp_l', Z.rem_mod_nonneg by lia. reflexivity. }
  rewrite Hrem.
  pose proof (Z.mod_pos_bound (- ii) n Hn) as Hb.
  assert (H : ((- ii) mod n = 0 <-> ii mod n = 0)%Z).
  { rewrite !Z.mod_divide by lia. apply Z.divide_opp_r. }
  generalize dependent ((- ii) mod n)%Z. generalize (ii mod n)%Z.
  intros a b _ Hb H. split; lia.
Qed.

(** A lookup [table[(int)(ii % n)]] raises exactly for the negative
    indexes that [n] does not divide. *)
Lemma lookup_raises (table : list string) (ii n : Z) :
  Z.of_nat (List.length table) = n -> (0 < n <= 500)%Z ->
  (Java.array_get table (Java.to_int (Java.rem ii n)) = None
   <-> (ii < 0 /\ ii mod n <> 0)%Z).
Proof.
  intros Hlen Hn. destruct (Z.lt_ge_cases ii 0) as [Hneg | Hpos].
  - destruct (rem_negative ii n Hneg ltac:(lia)) as [Hb Hz].
    rewrite to_int_small by lia. unfold Java.array_get.
    destruct (Z.ltb_spec (Java.rem ii n) 0) as [Hlt | Hge].
    + split; [intros _; split; [exact Hneg | lia] | reflexivity].
    + assert (H0 : Java.rem ii n = 0%Z) by lia. rewrite H0.
      destruct table as [| x rest]; [cbn in Hlen; lia |].
      cbn. split; [discriminate | intros [_ Hne]; exfalso; apply Hne, Hz, H0].
  - destruct (index_mod ii n ltac:(lia) Hn) as [E B]. rewrite E.
    rewrite (array_get_nth table _ EmptyString) by lia.
    split; [discriminate | lia].
Qed.

Lemma random_lookups_defined (s : RandomSource) :
  valid_source s ->
  Formula.Counterparty (unit_draw (s 3%nat)) <> None /\
  Formula.ExecStatus (unit_draw (s 4%nat)) <> None.
Proof.
  intros Hs.
  destruct (Counterparty_index_range (s 3%nat) (Hs 3%nat)) as [_ Bc].
  destruct (ExecStatus_index_range (s 4%nat) (Hs 4%nat)) as [_ Be].
  unfold Formula.Counterparty, Formula.ExecStatus.
  rewrite (array_get_nth Formula.COUNTERPARTIES _ EmptyString) by in_bounds.
  rewrite (array_get_nth Formula.STATUSES _ EmptyString) by in_bounds.
  split; discriminate.
Qed.

Lemma synthesize_raises (ii : Z) (s : RandomSource) :
  valid_source s ->
  (synthesize ii s = None <->
   Formula.Symbol ii = None \/ Formula.CUSIP ii = None \/ Formula.Venue ii = None \/
   Formula.Trader ii = None \/ Formula.Book ii = None).
Proof.
  intros Hs. destruct (random_lookups_defined s Hs) as [Hc He].
  change (s 3%nat) with (advance 1 (advance 1 (advance 1 s)) 0%nat) in Hc.
  change (s 4%nat) with (advance 1 (advance 1 (advance 1 (advance 1 s))) 0%nat) in He.
  unfold synthesize, bind, lift, Math_random, ret.
  destruct (Formula.Symbol ii); [| intuition congruence].
  destruct (Formula.CUSIP ii); [| intuition congruence].
  destruct (Formula.Venue ii); [| intuition congruence].
  destruct (Formula.Counterparty (unit_draw (advance 1 (advance 1 (advance 1 s)) 0%nat)));
    [| congruence].
  destruct (Formula.ExecStatus
              (unit_draw (advance 1 (advance 1 (advance 1 (advance 1 s))) 0%nat)));
    [| congruence].
  destruct (Formula.Trader ii); [| intuition congruence].
  destruct (Formula.Book ii); [| intuition congruence].
  intuition congruence.
Qed.

Lemma mod_60 (x : Z) :
  (x mod 60 = 0 <-> x mod 6 = 0 /\ x mod 5 = 0 /\ x mod 4 = 0 /\ x mod 3 = 0)%Z.
Proof.
  rewrite !Z.mod_divide by lia. split.
  - intros H. repeat split; (eapply Z.divide_trans; [| exact H]);
      [exists 10%Z | exists 12%Z | exists 15%Z | exists 20%Z]; reflexivity.
  - intros (_ & H5 & H4 & H3).
    pose proof (Z.lcm_least 3 4 x H3 H4) as H12. change (Z.lcm 3 4) with 12%Z in H12.
    pose proof (Z.lcm_least 12 5 x H12 H5) as H60. exact H60.
Qed.

(** X6: a negative row index is not silently accepted.  With the
    truncating [%] the lookups raise for every negative index that is not
    a multiple of 60, so no row is produced; for non-negative indexes
    (and for negative multiples of 60) a row is produced. *)
Theorem negative_index_raises (ii : Z) (s : RandomSource) :
  valid_source s ->
  (synthesize ii s = None <-> (ii < 0 /\ ii mod 60 <> 0)%Z).
Proof.
  intros Hs. rewrite (synthesize_raises ii s Hs).
  unfold Formula.Symbol, Formula.CUSIP, Formula.Venue, Formula.Trader, Formula.Book,
    Formula.Symbol_index, Formula.CUSIP_index, Formula.Venue_index,
    Formula.Trader_index, Formula.Book_index.
  rewrite (lookup_raises Formula.SYMBOLS ii 6) by (try reflexivity; lia).
  rewrite (lookup_raises Formula.CUSIPS ii 6) by (try reflexivity; lia).
  rewrite (lookup_raises Formula.VENUES ii 5) by (try reflexivity; lia).
  rewrite (lookup_raises Formula.TRADERS ii 4) by (try reflexivity; lia).
  rewrite (lookup_raises Formula.BOOKS ii 3) by (try reflexivity; lia).
  pose proof (mod_60 ii) as H60.
  destruct (Z.eq_dec (ii mod 60) 0) as [H | H]; lia.
Qed.

Lemma negative_index_raises_witness :
  synthesize (-1) demo_source = None <-> (-1 < 0 /\ -1 mod 60 <> 0)%Z.
Proof. apply (negative_index_raises (-1) demo_source). exact demo_source_valid. Defined.

(** ** The table as a sequence of rows *)

Lemma RowSpec_ext (ii : Z) (s1 s2 : RandomSource) (r : ExecutionRecord) :
  (forall j, s1 j = s2 j) -> RowSpec ii s1 r -> RowSpec ii s2 r.
Proof.
  intros Hext H. destruct H. constructor; rewrite <- ?Hext; assumption.
Qed.

Lemma rows_from_rows (n : nat) :
  forall ii s rows s',
  rows_from ii n s = Some (rows, s') ->
  List.length rows = n /\
  (forall j, s' j = s (5 * n + j)%nat) /\
  forall i r, nth_error rows i = Some r ->
              RowSpec (ii + Z.of_nat i) (advance (5 * i) s) r.
Proof.
  induction n as [| n IH]; intros ii s rows s' H.
  - cbn in H. unfold ret in H. injection H as <- <-.
    split; [reflexivity |]. split; [reflexivity |].
    intros i r Hi. rewrite nth_error_nil in Hi. discriminate.
  - cbn [rows_from] in H. unfold bind in H.
    destruct (synthesize ii s) as [[r0 s0] |] eqn:Hr0; [| discriminate].
    destruct (rows_from (ii + 1) n s0) as [[rs s1] |] eqn:Hrs; [| discriminate].
    unfold ret in H. injection H as <- <-.
    destruct (synthesize_inv ii s s0 r0 Hr0) as [Hspec ->].
    destruct (IH _ _ _ _ Hrs) as [Hlen [Hs1 Hrows]].
    split; [cbn; lia |]. split.
    + intros j. rewrite Hs1. unfold advance. f_equal. lia.
    + intros [| i] r Hi.
      * cbn in Hi. injection Hi as <-.
        replace (ii + Z.of_nat 0)%Z with ii by lia.
        apply (RowSpec_ext ii s); [reflexivity | exact Hspec].
      * cbn in Hi. specialize (Hrows i r Hi).
        replace (ii + Z.of_nat (S i))%Z with (ii + 1 + Z.of_nat i)%Z by lia.
        apply (RowSpec_ext _ (advance (5 * i) (advance 5 s))); [| exact Hrows].
        intros j. unfold advance. f_equal. lia.
Qed.

Lemma executions_defined (n : nat) (s : RandomSource) :
  valid_source s -> exists rows s', executions n s = Some (rows, s').
Proof.
  intros Hs.
  destruct (rows_from_Forall (fun _ => True) (fun _ _ _ _ _ _ => I) n 0 s
              ltac:(lia) Hs) as [rows [s' [H _]]].
  exists rows, s'. exact H.
Qed.



Lemma ExecId_NoDup (n : nat) :
  NoDup (map (fun i => Formula.ExecId (Z.of_nat i)) (seq 0 n)).
Proof.
  apply NoDup_nth_error. intros i j Hi Heq.
  rewrite length_map, length_seq in Hi.
  rewrite !nth_error_map, !nth_error_seq in Heq.
  destruct (Nat.ltb_spec i n) as [_ | ?]; [| lia].
  destruct (Nat.ltb_spec j n) as [_ | ?]; [| discriminate].
  cbn [option_map Nat.add] in Heq.
  assert (Heq' : Formula.ExecId (Z.of_nat i) = Formula.ExecId (Z.of_nat j))
    by congruence.
  destruct (Nat.eq_dec i j) as [E | Hne]; [exact E |].
  exfalso. apply (ExecId_injective (Z.of_nat i) (Z.of_nat j)); [lia | exact Heq'].
Qed.

(** X8: the ExecIds of the table are those of the indexes 0, 1, ...,
    n-1 in this order, without gap or repetition: no two rows of a table
    share an ExecId. *)
Theorem ExecId_sequence (n : nat) (s : RandomSource) :
  valid_source s ->
  exists rows s', executions n s = Some (rows, s') /\
    map ExecId rows = map (fun i => Formula.ExecId (Z.of_nat i)) (seq 0 n) /\
    NoDup (map ExecId rows).
Proof.
  intros Hs. destruct (executions_defined n s Hs) as [rows [s' H]].
  exists rows, s'. split; [exact H |].
  destruct (rows_from_rows n 0 s rows s' H) as [Hlen [_ Hrows]].
  assert (Heq : map ExecId rows = map (fun i => Formula.ExecId (Z.of_nat i)) (seq 0 n)).
  { apply nth_error_ext. intros i.
    rewrite !nth_error_map, nth_error_seq.
    destruct (Nat.ltb_spec i n) as [Hi | Hi].
    - destruct (nth_error rows i) as [r |] eqn:Hr.
      + cbn. f_equal. apply (row_ExecId _ _ _ (Hrows i r Hr)).
      + apply nth_error_None in Hr. lia.
    - assert (Hnone : nth_error rows i = None) by (apply nth_error_None; lia).
      rewrite Hnone. reflexivity. }
  split; [exact Heq |]. rewrite Heq. apply ExecId_NoDup.
Qed.

Lemma ExecId_sequence_witness :
  exists rows s', executions 3 demo_source = Some (rows, s') /\
    map ExecId rows = map (fun i => Formula.ExecId (Z.of_nat i)) (seq 0 3) /\
    NoDup (map ExecId rows).
Proof. apply (ExecId_sequence 3 demo_source). exact demo_source_valid. Defined.

(** ** How the index-driven columns go together *)

Lemma NoDup_SYMBOLS : NoDup Formula.SYMBOLS.
Proof. unfold Formula.SYMBOLS. repeat constructor; cbn; intuition discriminate. Qed.

Lemma NoDup_VENUES : NoDup Formula.VENUES.
Proof. unfold Formula.VENUES. repeat constructor; cbn; intuition discriminate. Qed.

Lemma NoDup_TRADERS : NoDup Formula.TRADERS.
Proof. unfold Formula.TRADERS. repeat constructor; cbn; intuition discriminate. Qed.

(** Two lookups in a table without repetition agree exactly when the
    indexes agree modulo its length. *)
Lemma lookup_eq_iff (table : list string) (n ii jj : Z) :
  NoDup table -> Z.of_nat (List.length table) = n -> (0 < n <= 500)%Z ->
  (0 <= ii)%Z -> (0 <= jj)%Z ->
  (Java.array_get table (Java.to_int (Java.rem ii n))
   = Java.array_get table (Java.to_int (Java.rem jj n))
   <-> (ii mod n = jj mod n)%Z).
Proof.
  intros Hnd Hlen Hn Hii Hjj.
  destruct (index_mod ii n Hii Hn) as [Ei Bi].
  destruct (index_mod jj n Hjj Hn) as [Ej Bj].
  rewrite Ei, Ej. split; [| intros ->; reflexivity].
  unfold Java.array_get.
  destruct (Z.ltb_spec (ii mod n) 0) as [? | _]; [lia |].
  destruct (Z.ltb_spec (jj mod n) 0) as [? | _]; [lia |].
  intros Heq. apply (proj1 (NoDup_nth_error table) Hnd) in Heq; lia.
Qed.

Lemma mod_eq_sub (m a b : Z) :
  (0 < m)%Z -> (a mod m = b mod m <-> (a - b) mod m = 0)%Z.
Proof.
  intros Hm. split; intros H.
  - rewrite Zminus_mod, H, Z.sub_diag. apply Z.mod_0_l. lia.
  - apply Z.mod_divide in H; [| lia]. destruct H as [q Hq].
    replace a with (b + q * m)%Z by lia. apply Z_mod_plus_full.
Qed.

Lemma mod_60_eq (a b : Z) :
  (a mod 60 = b mod 60 <->
   a mod 6 = b mod 6 /\ a mod 5 = b mod 5 /\ a mod 4 = b mod 4)%Z.
Proof.
  rewrite (mod_eq_sub 60), (mod_eq_sub 6), (mod_eq_sub 5), (mod_eq_sub 4) by lia.
  rewrite mod_60. split; [tauto |].
  intros (H6 & H5 & H4). repeat split; try assumption.
  apply Z.mod_divide in H6; [| lia]. apply Z.mod_divide; [lia |].
  eapply Z.divide_trans; [| exact H6]. exists 2%Z. reflexivity.
Qed.

Lemma mod_6_parts (a b : Z) :
  (a mod 6 = b mod 6 -> a mod 2 = b mod 2 /\ a mod 3 = b mod 3)%Z.
Proof.
  rewrite (mod_eq_sub 6), (mod_eq_sub 2), (mod_eq_sub 3) by lia.
  intros H. apply Z.mod_divide in H; [| lia].
  split; (apply Z.mod_divide; [lia |]); (eapply Z.divide_trans; [| exact H]);
    [exists 3%Z | exists 2%Z]; reflexivity.
Qed.

(** X9: the instrument fixes the side and the book.  Two generated rows
    with the same Symbol also have the same CUSIP, the same Side and the
    same Book, because [ii mod 6] determines [ii mod 2] and [ii mod 3]:
    a given instrument is only ever bought or only ever sold. *)
Theorem Symbol_determines_Side_and_Book
    (ii jj : Z) (s1 s1' s2 s2' : RandomSource) (r1 r2 : ExecutionRecord) :
  (0 <= ii)%Z -> (0 <= jj)%Z ->
  synthesize ii s1 = Some (r1, s1') -> synthesize jj s2 = Some (r2, s2') ->
  Symbol r1 = Symbol r2 ->
  CUSIP r1 = CUSIP r2 /\ Side r1 = Side r2 /\ Book r1 = Book r2.
Proof.
  intros Hii Hjj H1 H2 Hsym.
  destruct (synthesize_inv _ _ _ _ H1) as [S1 _].
  destruct (synthesize_inv _ _ _ _ H2) as [S2 _].
  assert (H6 : (ii mod 6 = jj mod 6)%Z).
  { apply (lookup_eq_iff Formula.SYMBOLS 6 ii jj NoDup_SYMBOLS eq_refl ltac:(lia) Hii Hjj).
    pose proof (row_Symbol _ _ _ S1) as A. pose proof (row_Symbol _ _ _ S2) as B.
    unfold Formula.Symbol, Formula.Symbol_index in A, B. congruence. }
  destruct (mod_6_parts ii jj H6) as [P2 P3].
  split; [| split].
  - pose proof (row_CUSIP _ _ _ S1) as A. pose proof (row_CUSIP _ _ _ S2) as B.
    unfold Formula.CUSIP, Formula.CUSIP_index in A, B.
    destruct (index_mod ii 6 Hii ltac:(lia)) as [Ei _].
    destruct (index_mod jj 6 Hjj ltac:(lia)) as [Ej _].
    rewrite Ei in A. rewrite Ej, <- H6 in B. congruence.
  - rewrite (row_Side _ _ _ S1), (row_Side _ _ _ S2).
    unfold Formula.Side, Java.rem. rewrite !Z.rem_mod_nonneg by lia.
    rewrite P2. reflexivity.
  - pose proof (row_Book _ _ _ S1) as A. pose proof (row_Book _ _ _ S2) as B.
    unfold Formula.Book, Formula.Book_index in A, B.
    destruct (index_mod ii 3 Hii ltac:(lia)) as [Ei _].
    destruct (index_mod jj 3 Hjj ltac:(lia)) as [Ej _].
    rewrite Ei in A. rewrite Ej, <- P3 in B. congruence.
Qed.

Lemma Symbol_determines_Side_and_Book_witness :
  exists r1 r2,
    synthesize 1 demo_source = Some (r1, advance 5 demo_source) /\
    synthesize 7 demo_source = Some (r2, advance 5 demo_source) /\
    Symbol r1 = Symbol r2 /\
    CUSIP r1 = CUSIP r2 /\ Side r1 = Side r2 /\ Book r1 = Book r2.
Proof.
  destruct (synthesize_row 1 demo_source ltac:(lia) demo_source_valid) as [r1 [H1 S1]].
  destruct (synthesize_row 7 demo_source ltac:(lia) demo_source_valid) as [r2 [H2 S2]].
  exists r1, r2. split; [exact H1 |]. split; [exact H2 |].
  assert (Hsym : Symbol r1 = Symbol r2).
  { pose proof (row_Symbol _ _ _ S1) as A. pose proof (row_Symbol _ _ _ S2) as B.
    change (Formula.Symbol 7) with (Formula.Symbol 1) in B. congruence. }
  split; [exact Hsym |].
  apply (Symbol_determines_Side_and_Book 1 7 demo_source (advance 5 demo_source)
           demo_source (advance 5 demo_source) r1 r2);
    [lia | lia | exact H1 | exact H2 | exact Hsym].
Defined.

(** X10: the index-driven columns cycle with period exactly 60: two
    generated rows carry the same Symbol, Venue and Trader if and only if
    their indexes agree modulo 60. *)
Theorem deterministic_columns_period_60
    (ii jj : Z) (s1 s1' s2 s2' : RandomSource) (r1 r2 : ExecutionRecord) :
  (0 <= ii)%Z -> (0 <= jj)%Z ->
  synthesize ii s1 = Some (r1, s1') -> synthesize jj s2 = Some (r2, s2') ->
  (Symbol r1 = Symbol r2 /\ Venue r1 = Venue r2 /\ Trader r1 = Trader r2
   <-> (ii mod 60 = jj mod 60)%Z).
Proof.
  intros Hii Hjj H1 H2.
  destruct (synthesize_inv _ _ _ _ H1) as [S1 _].
  destruct (synthesize_inv _ _ _ _ H2) as [S2 _].
  pose proof (lookup_eq_iff Formula.SYMBOLS 6 ii jj NoDup_SYMBOLS eq_refl ltac:(lia) Hii Hjj)
    as L6.
  pose proof (lookup_eq_iff Formula.VENUES 5 ii jj NoDup_VENUES eq_refl ltac:(lia) Hii Hjj)
    as L5.
  pose proof (lookup_eq_iff Formula.TRADERS 4 ii jj NoDup_TRADERS eq_refl ltac:(lia) Hii Hjj)
    as L4.
  pose proof (row_Symbol _ _ _ S1) as A6. pose proof (row_Symbol _ _ _ S2) as B6.
  pose proof (row_Venue _ _ _ S1) as A5. pose proof (row_Venue _ _ _ S2) as B5.
  pose proof (row_Trader _ _ _ S1) as A4. pose proof (row_Trader _ _ _ S2) as B4.
  unfold Formula.Symbol, Formula.Symbol_index in A6, B6.
  unfold Formula.Venue, Formula.Venue_index in A5, B5.
  unfold Formula.Trader, Formula.Trader_index in A4, B4.
  rewrite mod_60_eq, <- L6, <- L5, <- L4. rewrite A6, B6, A5, B5, A4, B4.
  split.
  - intros (E6 & E5 & E4). rewrite E6, E5, E4. repeat split.
  - intros (E6 & E5 & E4). repeat split; congruence.
Qed.

Lemma deterministic_columns_period_60_witness :
  exists r1 r2,
    synthesize 1 demo_source = Some (r1, advance 5 demo_source) /\
    synthesize 61 demo_source = Some (r2, advance 5 demo_source) /\
    (Symbol r1 = Symbol r2 /\ Venue r1 = Venue r2 /\ Trader r1 = Trader r2
     <-> (1 mod 60 = 61 mod 60)%Z).
Proof.
  destruct (synthesize_row 1 demo_source ltac:(lia) demo_source_valid) as [r1 [H1 _]].
  destruct (synthesize_row 61 demo_source ltac:(lia) demo_source_valid) as [r2 [H2 _]].
  exists r1, r2. split; [exact H1 |]. split; [exact H2 |].
  apply (deterministic_columns_period_60 1 61 demo_source (advance 5 demo_source)
           demo_source (advance 5 demo_source) r1 r2);
    [lia | lia | exact H1 | exact H2].
Defined.

(** X11: for every generated row, Trader is the entry at index
    [ii mod 4] of its table and Book the entry at index [ii mod 3]. *)
Theorem Trader_Book_by_index (ii : Z) (s : RandomSource) :
  (0 <= ii)%Z -> valid_source s ->
  exists r, synthesize ii s = Some (r, advance 5 s) /\
            nth_error Formula.TRADERS (Z.to_nat (ii mod 4)) = Some (Trader r) /\
            nth_error Formula.BOOKS (Z.to_nat (ii mod 3)) = Some (Book r).
Proof.
  intros Hii Hs. destruct (synthesize_row ii s Hii Hs) as [r [Hr Hspec]].
  exists r. split; [exact Hr |].
  pose proof (row_Trader _ _ _ Hspec) as Ht. pose proof (row_Book _ _ _ Hspec) as Hb.
  unfold Formula.Trader, Formula.Trader_index in Ht.
  unfold Formula.Book, Formula.Book_index in Hb.
  destruct (index_mod ii 4 Hii ltac:(lia)) as [E4 B4].
  destruct (index_mod ii 3 Hii ltac:(lia)) as [E3 B3].
  rewrite E4 in Ht. rewrite E3 in Hb. unfold Java.array_get in Ht, Hb.
  destruct (Z.ltb_spec (ii mod 4) 0) as [? | _]; [lia |].
  destruct (Z.ltb_spec (ii mod 3) 0) as [? | _]; [lia |].
  split; assumption.
Qed.

Lemma Trader_Book_by_index_witness :
  exists r, synthesize 501 demo_source = Some (r, advance 5 demo_source) /\
            nth_error Formula.TRADERS (Z.to_nat (501 mod 4)) = Some (Trader r) /\
            nth_error Formula.BOOKS (Z.to_nat (501 mod 3)) = Some (Book r).
Proof.
  apply (Trader_Book_by_index 501 demo_source); [lia | exact demo_source_valid].
Defined.
